(** * Energenie MiHome driver (hw/energenie/mihome.go)

    A shallow embedding of the legacy OOK command codec, the radio-mode
    bookkeeping of [SendControl] and [Receive], the receive loop and the
    multi-socket [On]/[Off] operations, with the properties the
    specification states about them.

    Bytes are integers in [0, 256) with the wrap-around of Go's [byte]
    written out.  A Go slice that may be [nil] is an [option (list Z)].
    The driver's collaborators (transceiver, GPIO, logger, event bus, clock)
    are fields of an explicit [World] that every operation threads. *)

From Stdlib Require Import ZArith NArith List Bool String Ascii Lia.
Import ListNotations.
Local Open Scope Z_scope.

(* ================================================================== *)
(** * Errors *)

(** [gopi.ErrBadParameter], [gopi.ErrNotImplemented] and [gopi.ErrAppError]
    are the three conditions the driver itself raises.  [ErrHexLength] and
    [ErrHexInvalidByte] are the errors of Go's [encoding/hex].  Every other
    error comes from a collaborator and is opaque to the driver:
    [ErrTransport n] from the transceiver, [ErrDecode n] from the protocol
    decoder. *)
Inductive error : Type :=
| ErrBadParameter
| ErrNotImplemented
| ErrAppError
| ErrHexLength
| ErrHexInvalidByte (c : ascii)
| ErrTransport (code : nat)
| ErrDecode (code : nat).

Inductive result (A : Type) : Type :=
| Ok (a : A)
| Err (e : error).
Arguments Ok {A} a.
Arguments Err {A} e.

(* ================================================================== *)
(** * The OOK command codec *)

(** Truncation of an integer to Go's [byte]. *)
Definition byte_of (z : Z) : Z := Z.land z 255.

(** [len] of a slice; [len(nil) = 0]. *)
Definition len {A : Type} (s : option (list A)) : nat :=
  match s with
  | None => 0%nat
  | Some l => List.length l
  end.

Definition OOK_PREAMBLE : list Z := [128; 0; 0; 0].

Definition OOK_ZERO : Z := 8.
Definition OOK_ONE : Z := 14.

(** [type Command byte] *)
Definition Command : Type := Z.

Definition OOK_NONE : Command := 0.
Definition OOK_ON_ALL : Command := 13.
Definition OOK_OFF_ALL : Command := 12.
Definition OOK_ON_1 : Command := 15.
Definition OOK_OFF_1 : Command := 14.
Definition OOK_ON_2 : Command := 7.
Definition OOK_OFF_2 : Command := 6.
Definition OOK_ON_3 : Command := 11.
Definition OOK_OFF_3 : Command := 10.
Definition OOK_ON_4 : Command := 3.
Definition OOK_OFF_4 : Command := 2.

(** One pass of the inner loop of [encodeByte] on the pair [(by, value)]:
    [by <<= 4], then or-in the nibble chosen by the top bit of [value],
    then [value <<= 1]. *)
Definition encodeBit (st : Z * Z) : Z * Z :=
  let '(by_, value) := st in
  let by_ := byte_of (Z.shiftl by_ 4) in
  let by_ := if Z.land value 128 =? 0
             then Z.lor by_ OOK_ZERO
             else Z.lor by_ OOK_ONE in
  (by_, byte_of (Z.shiftl value 1)).

(** The inner loop, [for j := 0; j < 2; j++], started from [by := 0]. *)
Definition encodePair (value : Z) : Z * Z :=
  encodeBit (encodeBit (0, value)).

(** The outer loop: [n] more output bytes from the current [value]. *)
Fixpoint encodeLoop (n : nat) (value : Z) : list Z :=
  match n with
  | O => []
  | S n' => let '(by_, value') := encodePair value in
            by_ :: encodeLoop n' value'
  end.

Definition encodeByte (value : Z) : list Z := encodeLoop 4 value.

(** [encodeByteArray]: [nil] stays [nil]; otherwise the encodings of the
    bytes are appended in order. *)
Definition encodeByteArray (array : option (list Z)) : option (list Z) :=
  match array with
  | None => None
  | Some l => Some (fold_left (fun encoded b => encoded ++ encodeByte b) l [])
  end.

(** Go's [s[2:]] on a slice already known to be long enough. *)
Definition slice_from (n : nat) (s : option (list Z)) : list Z :=
  match s with
  | None => []
  | Some l => skipn n l
  end.

Definition encodeCommandPayload (cid : option (list Z)) (cmd : Command)
  : result (list Z) :=
  let encoded_cmd := Some (encodeByte (byte_of cmd)) in
  if negb (len encoded_cmd =? 4)%nat then Err ErrAppError
  else
    let encoded_cid := encodeByteArray cid in
    if negb (len encoded_cid =? 12)%nat then Err ErrAppError
    else
      let payload := [] in
      let payload := payload ++ OOK_PREAMBLE in
      let payload := payload ++ slice_from 2 encoded_cid in
      let payload := payload ++ slice_from 2 encoded_cmd in
      Ok payload.

(** ** The decoder of the specification

    The specification's inverse nibble mapping: [0x8] is bit 0, [0xE] is
    bit 1, anything else is not a code word. *)
Definition decodeNibble (n : Z) : option Z :=
  if n =? OOK_ZERO then Some 0
  else if n =? OOK_ONE then Some 1
  else None.

(** The two nibbles of an encoded byte, high nibble first. *)
Definition nibbles (l : list Z) : list Z :=
  flat_map (fun x => [Z.shiftr x 4; Z.land x 15]) l.

(** Bits, most significant first, back to the number they spell. *)
Fixpoint decodeBits (acc : Z) (ns : list Z) : option Z :=
  match ns with
  | [] => Some acc
  | n :: ns' =>
      match decodeNibble n with
      | Some bit => decodeBits (2 * acc + bit) ns'
      | None => None
      end
  end.

Definition decodeByte (encoded : list Z) : option Z :=
  decodeBits 0 (nibbles encoded).

(** The nibble the specification assigns to bit [i] of [b], counted from
    the most significant bit. *)
Definition nibble_of_bit (b : Z) (i : nat) : Z :=
  if Z.testbit b (7 - Z.of_nat i) then OOK_ONE else OOK_ZERO.

(** The last [n] elements of a list. *)
Definition lastn {A : Type} (n : nat) (l : list A) : list A :=
  skipn (List.length l - n) l.

(* ================================================================== *)
(** * Hexadecimal device addresses *)

(** Go's [encoding/hex]: the value of a hexadecimal digit, either case. *)
Definition fromHexChar (c : ascii) : option Z :=
  let n := Z.of_nat (nat_of_ascii c) in
  if (48 <=? n) && (n <=? 57) then Some (n - 48)
  else if (97 <=? n) && (n <=? 102) then Some (n - 97 + 10)
  else if (65 <=? n) && (n <=? 70) then Some (n - 65 + 10)
  else None.

(** Go's [hex.DecodeString]: two digits per byte; an invalid digit is
    reported before a dangling last digit is. *)
Fixpoint hex_DecodeString (s : string) : result (list Z) :=
  match s with
  | EmptyString => Ok []
  | String p EmptyString =>
      match fromHexChar p with
      | None => Err (ErrHexInvalidByte p)
      | Some _ => Err ErrHexLength
      end
  | String p (String q rest) =>
      match fromHexChar p, fromHexChar q with
      | None, _ => Err (ErrHexInvalidByte p)
      | _, None => Err (ErrHexInvalidByte q)
      | Some a, Some b =>
          match hex_DecodeString rest with
          | Ok bytes => Ok (Z.lor (Z.shiftl a 4) b :: bytes)
          | Err e => Err e
          end
      end
  end.

(** The padding loop [for len(value)%2 != 0 { value = "0" + value }],
    with an explicit bound on the number of passes. *)
Fixpoint padLoop (fuel : nat) (value : string) : option string :=
  match fuel with
  | O => None
  | S fuel' =>
      if negb (Nat.eqb (Nat.modulo (String.length value) 2) 0)
      then padLoop fuel' (String "0"%char value)
      else Some value
  end.

Definition decodeHexString (value : string) : result (list Z) :=
  match padLoop 2 value with
  | Some padded => hex_DecodeString padded
  | None => Err ErrAppError
  end.

Definition CID_DEFAULT : string := "6C6C6".
Definition REPEAT_DEFAULT : N := 8%N.

(* ================================================================== *)
(** * The collaborators *)

(** Modelled from the spec: the enumerations of package [sensors] that the
    driver names, whose declarations are not in the driver's file.  The
    logical mode is one of NONE, CONTROL and MONITOR; of the transceiver's
    modes and modulations the ones the driver names are listed, plus the
    transceiver's resting modes. *)
Inductive MiHomeMode : Type :=
| MIHOME_MODE_NONE
| MIHOME_MODE_MONITOR
| MIHOME_MODE_CONTROL.

Inductive RFMMode : Type :=
| RFM_MODE_SLEEP
| RFM_MODE_STDBY
| RFM_MODE_FS
| RFM_MODE_TX
| RFM_MODE_RX.

Inductive RFMModulation : Type :=
| RFM_MODULATION_FSK
| RFM_MODULATION_OOK.

Scheme Equality for MiHomeMode.
Scheme Equality for RFMMode.
Scheme Equality for RFMModulation.

(** Modelled from the spec: the remaining register constants of package
    [sensors] that the two configuration sequences pass to the
    transceiver. *)
Inductive RFMConst : Type :=
| RFM_AFCMODE_OFF
| RFM_AFCROUTINE_STANDARD
| RFM_LNA_IMPEDANCE_50
| RFM_LNA_GAIN_AUTO
| RFM_RXBW_FREQUENCY_FSK_62P5
| RFM_RXBW_CUTOFF_4
| RFM_DATAMODE_PACKET
| RFM_PACKET_FORMAT_VARIABLE
| RFM_PACKET_CODING_NONE
| RFM_PACKET_CODING_MANCHESTER
| RFM_PACKET_FILTER_NONE
| RFM_PACKET_CRC_OFF.

(** The methods of [sensors.RFM69] the driver calls, with their
    arguments. *)
Inductive RadioCall : Type :=
| SetMode (m : RFMMode)
| SetModulation (m : RFMModulation)
| SetSequencer (enabled : bool)
| SetBitrate (bps : Z)
| SetFreqCarrier (hz : Z)
| SetFreqDeviation (hz : Z)
| SetAFCMode (c : RFMConst)
| SetAFCRoutine (c : RFMConst)
| SetLNA (impedance gain : RFMConst)
| SetRXFilter (frequency cutoff : RFMConst)
| SetDataMode (c : RFMConst)
| SetPacketFormat (c : RFMConst)
| SetPacketCoding (c : RFMConst)
| SetPacketFilter (c : RFMConst)
| SetPacketCRC (c : RFMConst)
| SetPreambleSize (n : Z)
| SetPayloadSize (n : Z)
| SetSyncWord (word : option (list Z))
| SetSyncTolerance (n : Z)
| SetNodeAddress (a : Z)
| SetBroadcastAddress (a : Z)
| SetAESKey (key : option (list Z))
| SetFIFOThreshold (n : Z)
| ClearFIFO
| ReadPayload
| WritePayload (payload : list Z) (repeat : N).

(** Modelled from the spec: the transceiver behind [sensors.RFM69], whose
    implementation is a collaborator of the driver.  The specification
    gives it "mode/modulation getters and setters" and register setters
    that may each fail with a transport error.  The model keeps what the
    getters report ([Mode], [Modulation]), the outcomes of the fallible
    calls still to come ([faults]: one entry is consumed per call, [Some e]
    makes that call fail with [e]; when the list is used up every call
    succeeds) and the calls issued so far, oldest first ([calls]).  A setter
    that succeeds makes the matching getter report the new value; a call
    that fails changes nothing the getters report. *)
Record Radio : Type := mkRadio {
  Mode : RFMMode;
  Modulation : RFMModulation;
  faults : list (option error);
  calls : list RadioCall
}.

Definition effect (c : RadioCall) (r : Radio) : Radio :=
  match c with
  | SetMode m => mkRadio m (Modulation r) (faults r) (calls r)
  | SetModulation m => mkRadio (Mode r) m (faults r) (calls r)
  | _ => r
  end.

Definition issue (c : RadioCall) (r : Radio) : Radio :=
  mkRadio (Mode r) (Modulation r) (faults r) (calls r ++ [c]).

Definition next_fault (r : Radio) : option error * Radio :=
  match faults r with
  | [] => (None, r)
  | f :: fs => (f, mkRadio (Mode r) (Modulation r) fs (calls r))
  end.

Definition perform (c : RadioCall) (r : Radio) : option error * Radio :=
  match next_fault (issue c r) with
  | (Some e, r') => (Some e, r')
  | (None, r') => (None, effect c r')
  end.

(** [gopi.GPIOPin], with the no-pin sentinel, and [gopi.GPIOState]. *)
Definition GPIOPin : Type := N.
Definition GPIO_PIN_NONE : GPIOPin := 255%N.

Inductive GPIOState : Type :=
| GPIO_LOW
| GPIO_HIGH.

(** The two GPIO methods the driver calls; pins are always switched to
    [gopi.GPIO_OUTPUT]. *)
Inductive GPIOCall : Type :=
| SetPinMode_OUTPUT (pin : GPIOPin)
| WritePin (pin : GPIOPin) (state : GPIOState).

(** [type LED uint] *)
Definition LED : Type := N.
Definition LED_ALL : LED := 0%N.
Definition LED_1 : LED := 1%N.
Definition LED_2 : LED := 2%N.
Definition LED_RX : LED := 3%N.
Definition LED_TX : LED := 4%N.

(** What one pass of the receive loop observes: the cancellation signal
    has fired at the [select], or the blocking [ReadPayload] returned an
    error, no data, or a payload. *)
Inductive read_result : Type :=
| ReadErr (e : error)
| ReadNil
| ReadData (data : list Z).

Inductive poll : Type :=
| CtxDone
| Read (r : read_result).

(** How far a [Receive] call got on a finite run of observations: it
    returned, or it is still polling when the observations end. *)
Inductive outcome : Type :=
| Returned (e : option error)
| Polling.

(** Raising an error into the result type of the enclosing function. *)
Class Raise (B : Type) : Type := raise : error -> B.
#[export] Instance Raise_error : Raise (option error) := fun e => Some e.
#[export] Instance Raise_outcome : Raise outcome := fun e => Returned (Some e).

(* ================================================================== *)
(** * The driver *)

(** The configuration [MiHome]; an interface field holds [true] when the
    interface value is not [nil]. *)
Record MiHome : Type := mkMiHome {
  GPIO : bool;
  Radio_ : bool;
  OpenThings : bool;
  PinReset : GPIOPin;
  PinLED1 : GPIOPin;
  PinLED2 : GPIOPin;
  CID : string;
  Repeat : N
}.

(** The driver's own fields.  Its logger, GPIO, radio, decoder and event
    bus are the other fields of [World]; the temperature offset is a float
    that no operation modelled here reads. *)
Record mihome : Type := mk_mihome {
  reset : GPIOPin;
  cid : option (list Z);
  repeat : N;
  led1 : GPIOPin;
  led2 : GPIOPin;
  ledrx : GPIOPin;
  ledtx : GPIOPin;
  mode : MiHomeMode
}.

Definition Open (config : MiHome) : result mihome :=
  let CID' := if String.eqb (CID config) EmptyString then CID_DEFAULT else CID config in
  let Repeat' := if (Repeat config =? 0)%N then REPEAT_DEFAULT else Repeat config in
  if negb (GPIO config) || negb (Radio_ config) || negb (OpenThings config)
  then Err ErrBadParameter
  else
    let ledrx0 := PinLED1 config in
    let ledtx0 := PinLED2 config in
    let ledtx1 := if (ledtx0 =? GPIO_PIN_NONE)%N then PinLED1 config else ledtx0 in
    let ledrx1 := if (ledtx0 =? GPIO_PIN_NONE)%N then ledrx0
                  else if (ledrx0 =? GPIO_PIN_NONE)%N then PinLED2 config
                  else ledrx0 in
    match decodeHexString CID' with
    | Err e => Err e
    | Ok cid0 =>
        Ok (mk_mihome (PinReset config) (Some cid0) Repeat'
              (PinLED1 config) (PinLED2 config) ledrx1 ledtx1
              MIHOME_MODE_NONE)
    end.

Definition set_mode (m : MiHomeMode) (d : mihome) : mihome :=
  mk_mihome (reset d) (cid d) (repeat d) (led1 d) (led2 d) (ledrx d) (ledtx d) m.

Section Driver.

(** [sensors.OTMessage] is opaque to the driver. *)
Context {OTMessage : Type}.

Record monitor_rx_event : Type := mk_event {
  ts : nat;
  message : OTMessage;
  reason : option error
}.

(** Everything an operation of the driver can read or change: the
    driver's fields, the transceiver, the GPIO calls made, the events
    emitted on the bus, the errors written to the log, and the clock. *)
Record World : Type := mkWorld {
  this : mihome;
  radio : Radio;
  gpio : list GPIOCall;
  pubsub : list monitor_rx_event;
  log : list error;
  now : nat
}.

(** Operations are state transformers; an error is an ordinary result, so
    what was done before it stays done. *)
Definition M (A : Type) : Type := World -> A * World.

Definition ret {A : Type} (a : A) : M A := fun w => (a, w).

Definition bind {A B : Type} (c : M A) (k : A -> M B) : M B :=
  fun w => let '(a, w') := c w in k a w'.

(** [if err := c; err != nil { return err } else k] *)
Definition guard {B : Type} `{Raise B} (c : M (option error)) (k : M B) : M B :=
  bind c (fun r => match r with
                   | Some e => ret (raise e)
                   | None => k
                   end).

End Driver.

Arguments World : clear implicits.
Arguments monitor_rx_event : clear implicits.
Arguments M : clear implicits.

Declare Scope driver_scope.
Delimit Scope driver_scope with driver.
Notation "x <- c ;; k" := (bind c (fun x => k))
  (at level 61, c at next level, right associativity) : driver_scope.
Notation "c ;; k" := (bind c (fun _ => k))
  (at level 61, right associativity) : driver_scope.
Notation "'check' c ;; k" := (guard c k)
  (at level 61, c at next level, right associativity) : driver_scope.

Section Operations.

Context {OTMessage : Type}.

(** [sensors.OpenThings.Decode]: the external protocol decoder, returning
    a message or [nil] and a failure or [nil]. *)
Variable Decode : list Z -> option OTMessage * option error.

Local Abbreviation Op := (M OTMessage).
Local Open Scope driver_scope.

(** ** Access to the collaborators *)

Definition get_this : Op mihome := fun w => (this w, w).

Definition put_mode (m : MiHomeMode) : Op unit :=
  fun w => (tt, mkWorld (set_mode m (this w)) (radio w) (gpio w)
                        (pubsub w) (log w) (now w)).

Definition radio_Mode : Op RFMMode := fun w => (Mode (radio w), w).

Definition radio_Modulation : Op RFMModulation :=
  fun w => (Modulation (radio w), w).

(** A fallible call on the transceiver. *)
Definition call (c : RadioCall) : Op (option error) :=
  fun w => let '(e, r) := perform c (radio w) in
           (e, mkWorld (this w) r (gpio w) (pubsub w) (log w) (now w)).

(** [ReadPayload(ctx)]: the call is recorded; what it returns is the
    observation [r] of this pass. *)
Definition radio_ReadPayload (r : read_result) : Op read_result :=
  fun w => (r, mkWorld (this w) (issue ReadPayload (radio w)) (gpio w)
                       (pubsub w) (log w) (now w)).

Definition gpio_call (c : GPIOCall) : Op unit :=
  fun w => (tt, mkWorld (this w) (radio w) (gpio w ++ [c])
                        (pubsub w) (log w) (now w)).

(** [time.Now()]: the clock is read and moves on. *)
Definition time_Now : Op nat :=
  fun w => (now w, mkWorld (this w) (radio w) (gpio w)
                           (pubsub w) (log w) (S (now w))).

Definition pubsub_Emit (e : monitor_rx_event OTMessage) : Op unit :=
  fun w => (tt, mkWorld (this w) (radio w) (gpio w)
                        (pubsub w ++ [e]) (log w) (now w)).

(** [this.log.Error("ClearFIFO: %v", err)] *)
Definition log_Error (e : error) : Op unit :=
  fun w => (tt, mkWorld (this w) (radio w) (gpio w)
                        (pubsub w) (log w ++ [e]) (now w)).

(** ** Indicators *)

(** The cases of [SetLED] other than [LED_ALL]. *)
Definition SetLED_single (led : LED) (state : GPIOState) : Op (option error) :=
  d <- get_this ;;
  if (led =? LED_1)%N then
    if (led1 d =? GPIO_PIN_NONE)%N then ret (Some ErrNotImplemented)
    else gpio_call (SetPinMode_OUTPUT (led1 d)) ;;
         gpio_call (WritePin (led1 d) state) ;;
         ret None
  else if (led =? LED_2)%N then
    if (led2 d =? GPIO_PIN_NONE)%N then ret (Some ErrNotImplemented)
    else gpio_call (SetPinMode_OUTPUT (led2 d)) ;;
         gpio_call (WritePin (led2 d) state) ;;
         ret None
  else if (led =? LED_RX)%N then
    if (ledrx d =? GPIO_PIN_NONE)%N then ret None
    else gpio_call (SetPinMode_OUTPUT (ledrx d)) ;;
         gpio_call (WritePin (ledrx d) state) ;;
         ret None
  else if (led =? LED_TX)%N then
    if (ledtx d =? GPIO_PIN_NONE)%N then ret None
    else gpio_call (SetPinMode_OUTPUT (ledtx d)) ;;
         gpio_call (WritePin (ledtx d) state) ;;
         ret None
  else ret (Some ErrBadParameter).

(** [SetLED]; its only recursive calls are the two of the [LED_ALL] case,
    on [LED_1] and [LED_2]. *)
Definition SetLED (led : LED) (state : GPIOState) : Op (option error) :=
  if (led =? LED_ALL)%N then
    d <- get_this ;;
    check (if negb (led1 d =? GPIO_PIN_NONE)%N
           then SetLED_single LED_1 state else ret None) ;;
    check (if negb (led2 d =? GPIO_PIN_NONE)%N
           then SetLED_single LED_2 state else ret None) ;;
    ret None
  else SetLED_single led state.

(** [ResetRadio]; the two [time.Sleep] calls leave no trace in the
    model. *)
Definition ResetRadio : Op (option error) :=
  d <- get_this ;;
  if (reset d =? GPIO_PIN_NONE)%N then ret (Some ErrNotImplemented)
  else
    gpio_call (SetPinMode_OUTPUT (reset d)) ;;
    check SetLED LED_ALL GPIO_HIGH ;;
    gpio_call (WritePin (reset d) GPIO_HIGH) ;;
    gpio_call (WritePin (reset d) GPIO_LOW) ;;
    check SetLED LED_ALL GPIO_LOW ;;
    put_mode MIHOME_MODE_NONE ;;
    ret None.

(** ** The two configuration sequences *)

Definition setFSKMode : Op (option error) :=
  check call (SetMode RFM_MODE_STDBY) ;;
  check call (SetModulation RFM_MODULATION_FSK) ;;
  check call (SetSequencer true) ;;
  check call (SetBitrate 4800) ;;
  check call (SetFreqCarrier 434300000) ;;
  check call (SetFreqDeviation 30000) ;;
  check call (SetAFCMode RFM_AFCMODE_OFF) ;;
  check call (SetAFCRoutine RFM_AFCROUTINE_STANDARD) ;;
  check call (SetLNA RFM_LNA_IMPEDANCE_50 RFM_LNA_GAIN_AUTO) ;;
  check call (SetRXFilter RFM_RXBW_FREQUENCY_FSK_62P5 RFM_RXBW_CUTOFF_4) ;;
  check call (SetDataMode RFM_DATAMODE_PACKET) ;;
  check call (SetPacketFormat RFM_PACKET_FORMAT_VARIABLE) ;;
  check call (SetPacketCoding RFM_PACKET_CODING_MANCHESTER) ;;
  check call (SetPacketFilter RFM_PACKET_FILTER_NONE) ;;
  check call (SetPacketCRC RFM_PACKET_CRC_OFF) ;;
  check call (SetPreambleSize 3) ;;
  check call (SetPayloadSize 64) ;;
  check call (SetSyncWord (Some [45; 212])) ;;
  check call (SetSyncTolerance 0) ;;
  check call (SetNodeAddress 4) ;;
  check call (SetBroadcastAddress 255) ;;
  check call (SetAESKey None) ;;
  check call (SetFIFOThreshold 1) ;;
  ret None.

Definition setOOKMode : Op (option error) :=
  check call (SetMode RFM_MODE_STDBY) ;;
  check call (SetModulation RFM_MODULATION_OOK) ;;
  check call (SetSequencer true) ;;
  check call (SetBitrate 4800) ;;
  check call (SetFreqCarrier 433920000) ;;
  check call (SetFreqDeviation 0) ;;
  check call (SetAFCMode RFM_AFCMODE_OFF) ;;
  check call (SetDataMode RFM_DATAMODE_PACKET) ;;
  check call (SetPacketFormat RFM_PACKET_FORMAT_VARIABLE) ;;
  check call (SetPacketCoding RFM_PACKET_CODING_NONE) ;;
  check call (SetPacketFilter RFM_PACKET_FILTER_NONE) ;;
  check call (SetPacketCRC RFM_PACKET_CRC_OFF) ;;
  check call (SetPreambleSize 0) ;;
  check call (SetPayloadSize 0) ;;
  check call (SetSyncWord None) ;;
  check call (SetAESKey None) ;;
  check call (SetFIFOThreshold 1) ;;
  ret None.

(** ** Transmit *)

(** [SendControl].  The deferred [SetLED(LED_TX, GPIO_LOW)] runs when the
    last branch returns, whatever [WritePayload] returned. *)
Definition SendControl (cid : option (list Z)) (cmd : Command) (repeat : N)
  : Op (option error) :=
  if (repeat =? 0)%N || (match cid with None => true | Some _ => false end)
  then ret (Some ErrBadParameter)
  else
    match encodeCommandPayload cid cmd with
    | Err e => ret (Some e)
    | Ok payload =>
        modulation <- radio_Modulation ;;
        d <- get_this ;;
        if negb (RFMModulation_beq modulation RFM_MODULATION_OOK)
           || negb (MiHomeMode_beq (mode d) MIHOME_MODE_CONTROL)
        then
          check setOOKMode ;;
          put_mode MIHOME_MODE_CONTROL ;;
          ret None
        else
          check call (SetMode RFM_MODE_TX) ;;
          check call (SetSequencer true) ;;
          SetLED LED_TX GPIO_HIGH ;;
          r <- call (WritePayload payload repeat) ;;
          SetLED LED_TX GPIO_LOW ;;
          ret r
    end.

(** ** Receive *)

Definition emitMessage (message : OTMessage) (reason : option error) : Op unit :=
  t <- time_Now ;;
  pubsub_Emit (mk_event t message reason).

(** The body of the loop for a payload that is not [nil]. *)
Definition receive_payload (data : list Z) : Op unit :=
  SetLED LED_RX GPIO_HIGH ;;
  (match Decode data with
   | (Some message, reason) =>
       emitMessage message reason ;;
       match reason with
       | Some _ =>
           r <- call ClearFIFO ;;
           match r with
           | Some err => log_Error err
           | None => ret tt
           end
       | None => ret tt
       end
   | (None, _) => ret tt
   end) ;;
  SetLED LED_RX GPIO_LOW ;;
  ret tt.

(** The polling loop over the observations [ctx] of its passes. *)
Fixpoint receive_loop (ctx : list poll) : Op outcome :=
  match ctx with
  | [] => ret Polling
  | CtxDone :: _ => ret (Returned None)
  | Read r :: ctx' =>
      got <- radio_ReadPayload r ;;
      match got with
      | ReadErr e => ret (Returned (Some e))
      | ReadNil => receive_loop ctx'
      | ReadData data => receive_payload data ;; receive_loop ctx'
      end
  end.

Definition Receive (ctx : list poll) (mode_ : MiHomeMode) : Op outcome :=
  if negb (MiHomeMode_beq mode_ MIHOME_MODE_MONITOR)
  then ret (Returned (Some ErrNotImplemented))
  else
    check (modulation <- radio_Modulation ;;
           d <- get_this ;;
           if negb (RFMModulation_beq modulation RFM_MODULATION_FSK)
              || negb (MiHomeMode_beq (mode d) MIHOME_MODE_MONITOR)
           then check setFSKMode ;;
                put_mode MIHOME_MODE_MONITOR ;;
                ret None
           else ret None) ;;
    check (m <- radio_Mode ;;
           if negb (RFMMode_beq m RFM_MODE_RX)
           then call (SetMode RFM_MODE_RX)
           else call ClearFIFO) ;;
    receive_loop ctx.

(** ** Sockets *)

Definition onCommandForSocket (socket : N) : Command * option error :=
  match socket with
  | 1%N => (OOK_ON_1, None)
  | 2%N => (OOK_ON_2, None)
  | 3%N => (OOK_ON_3, None)
  | 4%N => (OOK_ON_4, None)
  | _ => (OOK_NONE, Some ErrBadParameter)
  end.

Definition offCommandForSocket (socket : N) : Command * option error :=
  match socket with
  | 1%N => (OOK_OFF_1, None)
  | 2%N => (OOK_OFF_2, None)
  | 3%N => (OOK_OFF_3, None)
  | 4%N => (OOK_OFF_4, None)
  | _ => (OOK_NONE, Some ErrBadParameter)
  end.

(** [for _, socket := range sockets], shared by [On] and [Off], which
    differ in the table [resolve] only. *)
Fixpoint each_socket (resolve : N -> Command * option error)
         (sockets : list N) : Op (option error) :=
  match sockets with
  | [] => ret None
  | socket :: rest =>
      match resolve socket with
      | (_, Some err) => ret (Some err)
      | (cmd, None) =>
          d <- get_this ;;
          check SendControl (cid d) cmd (repeat d) ;;
          each_socket resolve rest
      end
  end.

Definition On (sockets : list N) : Op (option error) :=
  if (List.length sockets =? 0)%nat then
    d <- get_this ;;
    SendControl (cid d) OOK_ON_ALL (repeat d)
  else each_socket onCommandForSocket sockets.

Definition Off (sockets : list N) : Op (option error) :=
  if (List.length sockets =? 0)%nat then
    d <- get_this ;;
    SendControl (cid d) OOK_OFF_ALL (repeat d)
  else each_socket offCommandForSocket sockets.

End Operations.

(* ================================================================== *)
(** * Vocabulary of the properties *)

(** The two configuration sequences as lists of calls, and the chain
    [if err := c1; err != nil { return err } else if err := c2; ...] over
    such a list. *)
Definition fskSequence : list RadioCall :=
  [ SetMode RFM_MODE_STDBY; SetModulation RFM_MODULATION_FSK;
    SetSequencer true; SetBitrate 4800; SetFreqCarrier 434300000;
    SetFreqDeviation 30000; SetAFCMode RFM_AFCMODE_OFF;
    SetAFCRoutine RFM_AFCROUTINE_STANDARD;
    SetLNA RFM_LNA_IMPEDANCE_50 RFM_LNA_GAIN_AUTO;
    SetRXFilter RFM_RXBW_FREQUENCY_FSK_62P5 RFM_RXBW_CUTOFF_4;
    SetDataMode RFM_DATAMODE_PACKET;
    SetPacketFormat RFM_PACKET_FORMAT_VARIABLE;
    SetPacketCoding RFM_PACKET_CODING_MANCHESTER;
    SetPacketFilter RFM_PACKET_FILTER_NONE; SetPacketCRC RFM_PACKET_CRC_OFF;
    SetPreambleSize 3; SetPayloadSize 64; SetSyncWord (Some [45; 212]);
    SetSyncTolerance 0; SetNodeAddress 4; SetBroadcastAddress 255;
    SetAESKey None; SetFIFOThreshold 1 ].

Definition ookSequence : list RadioCall :=
  [ SetMode RFM_MODE_STDBY; SetModulation RFM_MODULATION_OOK;
    SetSequencer true; SetBitrate 4800; SetFreqCarrier 433920000;
    SetFreqDeviation 0; SetAFCMode RFM_AFCMODE_OFF;
    SetDataMode RFM_DATAMODE_PACKET;
    SetPacketFormat RFM_PACKET_FORMAT_VARIABLE;
    SetPacketCoding RFM_PACKET_CODING_NONE;
    SetPacketFilter RFM_PACKET_FILTER_NONE; SetPacketCRC RFM_PACKET_CRC_OFF;
    SetPreambleSize 0; SetPayloadSize 0; SetSyncWord None;
    SetAESKey None; SetFIFOThreshold 1 ].

Fixpoint run_calls {OTMessage : Type} (cs : list RadioCall)
  : M OTMessage (option error) :=
  match cs with
  | [] => ret None
  | c :: cs' => guard (call c) (run_calls cs')
  end.

(** The transceiver calls issued between world [w] and a later world
    [w']. *)
Definition issued {OTMessage : Type} (w w' : World OTMessage) : list RadioCall :=
  skipn (List.length (calls (radio w))) (calls (radio w')).

(** The events published between world [w] and a later world [w']. *)
Definition published {OTMessage : Type} (w w' : World OTMessage)
  : list (monitor_rx_event OTMessage) :=
  skipn (List.length (pubsub w)) (pubsub w').

(** The driver needs the control (resp. monitor) configuration applied
    before it can transmit (resp. receive). *)
Definition needs_OOK {OTMessage : Type} (w : World OTMessage) : bool :=
  negb (RFMModulation_beq (Modulation (radio w)) RFM_MODULATION_OOK)
  || negb (MiHomeMode_beq (mode (this w)) MIHOME_MODE_CONTROL).

Definition needs_FSK {OTMessage : Type} (w : World OTMessage) : bool :=
  negb (RFMModulation_beq (Modulation (radio w)) RFM_MODULATION_FSK)
  || negb (MiHomeMode_beq (mode (this w)) MIHOME_MODE_MONITOR).

Definition is_WritePayload (c : RadioCall) : bool :=
  match c with
  | WritePayload _ _ => true
  | _ => false
  end.

(** The calls a receive session makes once the monitor configuration is
    in place; none of them belongs to a configuration sequence. *)
Definition is_rx_call (c : RadioCall) : bool :=
  match c with
  | SetMode RFM_MODE_RX | ClearFIFO | ReadPayload => true
  | _ => false
  end.

(** What the getters report after the calls [cs] have all succeeded. *)
Definition settle (cs : list RadioCall) (r : Radio) : Radio :=
  fold_left (fun r' c => effect c r') cs r.

(** Between [w] and [w'] nothing but the GPIO trace has changed. *)
Definition only_gpio {OTMessage : Type} (w w' : World OTMessage) : Prop :=
  this w' = this w /\ radio w' = radio w /\ pubsub w' = pubsub w
  /\ log w' = log w /\ now w' = now w.

(** Between [w] and [w'] nothing but the transceiver has changed. *)
Definition only_radio {OTMessage : Type} (w w' : World OTMessage) : Prop :=
  this w' = this w /\ gpio w' = gpio w /\ pubsub w' = pubsub w
  /\ log w' = log w /\ now w' = now w.

(** The first pending outcome of the transceiver, if it is a failure. *)
Definition pending_fault (r : Radio) : option error :=
  match faults r with
  | Some e :: _ => Some e
  | _ => None
  end.

(** A pass of the receive loop after which the loop goes on. *)
Definition goes_on (p : poll) : bool :=
  match p with
  | Read ReadNil | Read (ReadData _) => true
  | _ => false
  end.

Definition is_ReadPayload (c : RadioCall) : bool :=
  match c with
  | ReadPayload => true
  | _ => false
  end.

(** The three blocks that [SendControl] and [Receive] are made of before
    they transmit or poll: applying the control configuration and recording
    it, the same for the monitor configuration, and putting the transceiver
    in receive (clearing the FIFO when it is receiving already). *)
Definition reconfigure_control {OTMessage : Type} : M OTMessage (option error) :=
  guard setOOKMode (bind (put_mode MIHOME_MODE_CONTROL) (fun _ => ret None)).

Definition reconfigure_monitor {OTMessage : Type} : M OTMessage (option error) :=
  guard setFSKMode (bind (put_mode MIHOME_MODE_MONITOR) (fun _ => ret None)).

Definition arm_receive {OTMessage : Type} : M OTMessage (option error) :=
  bind radio_Mode
       (fun m => if negb (RFMMode_beq m RFM_MODE_RX)
                 then call (SetMode RFM_MODE_RX)
                 else call ClearFIFO).

(** The transmit block of [SendControl]: re-arm transmit, then write the
    payload between the two switches of the TX indicator. *)
Definition transmit {OTMessage : Type} (payload : list Z) (rep : N)
  : M OTMessage (option error) :=
  guard (call (SetMode RFM_MODE_TX))
        (guard (call (SetSequencer true))
               (bind (SetLED LED_TX GPIO_HIGH)
                     (fun _ => bind (call (WritePayload payload rep))
                                    (fun r => bind (SetLED LED_TX GPIO_LOW)
                                                   (fun _ => ret r))))).

Definition is_SetModulation (c : RadioCall) : bool :=
  match c with
  | SetModulation _ => true
  | _ => false
  end.

(** ** A concrete installation *)

(** The board of the command-line tool's module: reset on pin 25, LEDs on
    pins 27 and 22, default address and repeat count. *)
Definition board_config : MiHome :=
  mkMiHome true true true 25%N 27%N 22%N EmptyString 0%N.

Definition board_driver : mihome :=
  mk_mihome 25%N (Some [6; 198; 198]) 8%N 27%N 22%N 27%N 22%N MIHOME_MODE_NONE.

(** A freshly opened driver on a transceiver at rest, whose coming calls
    have the outcomes [fs]; messages are the raw frames. *)
Definition board (fs : list (option error)) : World (list Z) :=
  mkWorld board_driver (mkRadio RFM_MODE_STDBY RFM_MODULATION_FSK fs [])
          [] [] [] 0.

(** A decoder: an empty frame or one starting with 0 is undecodable, a
    frame starting with 1 decodes with a failure attached, any other frame
    decodes. *)
Definition frame_Decode (data : list Z) : option (list Z) * option error :=
  match data with
  | [] => (None, Some (ErrDecode 0))
  | x :: _ =>
      if x =? 0 then (None, Some (ErrDecode 1))
      else if x =? 1 then (Some data, Some (ErrDecode 2))
      else (Some data, None)
  end.

Definition board_cid : option (list Z) := Some [6; 198; 198].

(** A session on the board in which two configuration steps fail.  The
    first 24 calls succeed (a monitor configuration and the switch to RX),
    then the third call of a control configuration fails, then the third
    call of a monitor configuration fails; every later call succeeds. *)
Definition retry_faults : list (option error) :=
  List.repeat None 24
  ++ [None; None; Some (ErrTransport 1)]
  ++ [None; None; Some (ErrTransport 2)].

(** The worlds of that session: after a first [Receive] that is cancelled
    at once, after a [SendControl], and after two more [Receive] calls
    cancelled at once. *)
Definition retry_w1 : World (list Z) :=
  snd (Receive frame_Decode [CtxDone] MIHOME_MODE_MONITOR (board retry_faults)).

Definition retry_w2 : World (list Z) :=
  snd (SendControl board_cid OOK_ON_ALL 8%N retry_w1).

Definition retry_w3 : World (list Z) :=
  snd (Receive frame_Decode [CtxDone] MIHOME_MODE_MONITOR retry_w2).

Definition retry_w4 : World (list Z) :=
  snd (Receive frame_Decode [CtxDone] MIHOME_MODE_MONITOR retry_w3).

(** A receive session on the board: an undecodable frame, then
    cancellation. *)
Definition undecodable_session : list poll :=
  [Read (ReadData [0; 5]); CtxDone].

(** Two sends in a row on the freshly opened board. *)
Definition sent_once : World (list Z) :=
  snd (SendControl board_cid OOK_ON_1 8%N (board [])).

Definition sent_twice : World (list Z) :=
  snd (SendControl board_cid OOK_ON_2 8%N sent_once).

(** Two receive sessions in a row on the freshly opened board, and the
    board right after the mode set-up of a receive session. *)
Definition listened_once : World (list Z) :=
  snd (Receive frame_Decode [Read (ReadData [2]); CtxDone]
               MIHOME_MODE_MONITOR (board [])).

Definition listened_twice : World (list Z) :=
  snd (Receive frame_Decode [Read ReadNil; CtxDone]
               MIHOME_MODE_MONITOR listened_once).

Definition listening : World (list Z) :=
  snd (Receive frame_Decode [] MIHOME_MODE_MONITOR (board [])).

(** The board after a [SendControl] whose control configuration failed at
    its second step. *)
Definition send_failed : World (list Z) :=
  snd (SendControl board_cid OOK_ON_ALL 8%N
                   (board [None; Some (ErrTransport 3)])).

(** All bytes, in order. *)
Definition all_bytes : list Z := map Z.of_nat (seq 0 256).

Definition list_Z_eqb (a b : list Z) : bool :=
  if list_eq_dec Z.eq_dec a b then true else false.

(* ================================================================== *)
(** * The rest of the driver *)

(** [Command.String]; the cases are tried in the order of the source. *)
Definition Command_String (c : Command) : string :=
  if c =? OOK_ON_ALL then "OOK_ON_ALL"
  else if c =? OOK_OFF_ALL then "OOK_OFF_ALL"
  else if c =? OOK_ON_1 then "OOK_ON_1"
  else if c =? OOK_ON_2 then "OOK_ON_2"
  else if c =? OOK_OFF_2 then "OOK_OFF_2"
  else if c =? OOK_ON_3 then "OOK_ON_3"
  else if c =? OOK_OFF_3 then "OOK_OFF_3"
  else if c =? OOK_ON_4 then "OOK_ON_4"
  else if c =? OOK_OFF_4 then "OOK_OFF_4"
  else "[?? Invalid Command value]".

Section Temperature.

Context {OTMessage : Type}.

(** The driver hands the [float32] reading through without computing on
    it; [zero] is the literal [0] it returns beside an error. *)
Context {float32 : Type}.
Variable zero : float32.

Local Open Scope driver_scope.


End Temperature.

(** ** Vocabulary of the further properties *)

(** The GPIO calls that drive the indicator on [pin] to [state]; none
    when no pin is wired. *)
Definition indicate (pin : GPIOPin) (state : GPIOState) : list GPIOCall :=
  if (pin =? GPIO_PIN_NONE)%N then []
  else [SetPinMode_OUTPUT pin; WritePin pin state].

(** The GPIO calls of a [SetLED] that succeeds, and the error of one that
    fails, by role. *)
Definition led_calls (d : mihome) (led : LED) (state : GPIOState)
  : list GPIOCall :=
  if (led =? LED_ALL)%N then indicate (led1 d) state ++ indicate (led2 d) state
  else if (led =? LED_1)%N then indicate (led1 d) state
  else if (led =? LED_2)%N then indicate (led2 d) state
  else if (led =? LED_RX)%N then indicate (ledrx d) state
  else if (led =? LED_TX)%N then indicate (ledtx d) state
  else [].

Definition led_error (d : mihome) (led : LED) : option error :=
  if (led =? LED_1)%N && (led1 d =? GPIO_PIN_NONE)%N then Some ErrNotImplemented
  else if (led =? LED_2)%N && (led2 d =? GPIO_PIN_NONE)%N then Some ErrNotImplemented
  else if (4 <? led)%N then Some ErrBadParameter
  else None.

(** The outcome pending for the [n]-th next call of the transceiver, if it
    is a failure. *)
Definition nth_fault (n : nat) (fs : list (option error)) : option error :=
  match skipn n fs with
  | Some e :: _ => Some e
  | _ => None
  end.

(** The calls that belong to sending: anything but the receive calls and
    the selection of FSK.  The calls that belong to receiving: anything but
    the switch to TX, the writing of a payload and the selection of OOK. *)
Definition is_control_call (c : RadioCall) : bool :=
  match c with
  | SetMode RFM_MODE_RX | ClearFIFO | ReadPayload
  | SetModulation RFM_MODULATION_FSK => false
  | _ => true
  end.

Definition is_monitor_call (c : RadioCall) : bool :=
  match c with
  | SetMode RFM_MODE_TX | WritePayload _ _
  | SetModulation RFM_MODULATION_OOK => false
  | _ => true
  end.

(** The commands an [On] or [Off] call asks [SendControl] to send. *)
Definition commands_of (all : Command) (resolve : N -> Command * option error)
           (sockets : list N) : list Command :=
  match sockets with
  | [] => [all]
  | _ => map (fun s => fst (resolve s)) sockets
  end.

(** An indicator raised and lowered again. *)
Definition blink (pin : GPIOPin) : list GPIOCall :=
  indicate pin GPIO_HIGH ++ indicate pin GPIO_LOW.

(** The payload of a command, or nothing when it cannot be built. *)
Definition payload_for (cid : option (list Z)) (cmd : Command) : list Z :=
  match encodeCommandPayload cid cmd with
  | Ok payload => payload
  | Err _ => []
  end.

Definition valid_socket (socket : N) : bool :=
  (1 <=? socket)%N && (socket <=? 4)%N.

Definition is_byte (b : Z) : bool := (0 <=? b) && (b <? 256).

Definition is_hex_digit (c : ascii) : bool :=
  match fromHexChar c with
  | Some _ => true
  | None => false
  end.

(** The inverse of [encodeByteArray]: four encoded bytes per byte. *)
Fixpoint decodeByteArray (encoded : list Z) : option (list Z) :=
  match encoded with
  | [] => Some []
  | b0 :: b1 :: b2 :: b3 :: rest =>
      match decodeByte [b0; b1; b2; b3], decodeByteArray rest with
      | Some b, Some bs => Some (b :: bs)
      | _, _ => None
      end
  | _ => None
  end.

(** The payloads written among the calls [l], oldest first. *)
Definition written (l : list RadioCall) : list (list Z * N) :=
  flat_map (fun c => match c with
                     | WritePayload payload rep => [(payload, rep)]
                     | _ => []
                     end) l.


(** The GPIO calls made between world [w] and a later world [w']. *)
Definition signalled {OTMessage : Type} (w w' : World OTMessage) : list GPIOCall :=
  skipn (List.length (gpio w)) (gpio w').

(** ** Further installations *)



(** A board opened with a four-digit address string. *)
Definition short_cid_config : MiHome :=
  mkMiHome true true true 25%N 27%N 22%N "ABCD" 0%N.

Definition short_cid_board : World (list Z) :=
  mkWorld (mk_mihome 25%N (Some [171; 205]) 8%N 27%N 22%N 27%N 22%N
                     MIHOME_MODE_NONE)
          (mkRadio RFM_MODE_STDBY RFM_MODULATION_FSK [] []) [] [] [] 0.

(** The board after a reset, after switching three sockets on, and after
    a receive session of three frames. *)
Definition reset_board : World (list Z) := snd (ResetRadio sent_once).

Definition switched_board : World (list Z) :=
  snd (On [1%N; 2%N; 3%N] (board [])).

Definition three_frames : list poll :=
  [Read (ReadData [2; 7]); Read (ReadData [0]); Read ReadNil;
   Read (ReadData [1; 9]); CtxDone].

Definition heard_board : World (list Z) :=
  snd (Receive frame_Decode three_frames MIHOME_MODE_MONITOR (board [])).


(* ================================================================== *)
(** * Properties of the codec *)

Lemma all_bytes_In (b : Z) : 0 <= b < 256 -> In b all_bytes.
Proof.
  intros Hb. unfold all_bytes. apply in_map_iff.
  exists (Z.to_nat b). split; [lia | apply in_seq; lia].
Qed.

(** A decidable property checked on the 256 bytes holds of every byte. *)
Lemma byte_forall (P : Z -> bool) :
  forallb P all_bytes = true -> forall b, 0 <= b < 256 -> P b = true.
Proof.
  intros H b Hb. rewrite forallb_forall in H. apply H, all_bytes_In, Hb.
Qed.

Lemma byte_of_byte (b : Z) : 0 <= b < 256 -> byte_of b = b.
Proof.
  intros Hb. unfold byte_of. change 255 with (Z.ones 8).
  rewrite Z.land_ones by lia. apply Z.mod_small. exact Hb.
Qed.

Lemma list_Z_eqb_eq (a b : list Z) : list_Z_eqb a b = true -> a = b.
Proof.
  unfold list_Z_eqb. destruct (list_eq_dec Z.eq_dec a b); [trivial | discriminate].
Qed.

(** The two nested loops always fill the four bytes. *)
Lemma encodeByte_length (value : Z) : List.length (encodeByte value) = 4%nat.
Proof.
  unfold encodeByte. cbn [encodeLoop].
  repeat match goal with
         | |- context [encodePair ?v] => destruct (encodePair v)
         end.
  reflexivity.
Qed.

Lemma encode_fold_length (l : list Z) :
  forall acc,
    List.length (fold_left (fun encoded b => encoded ++ encodeByte b) l acc)
    = (List.length acc + 4 * List.length l)%nat.
Proof.
  induction l as [|b l IH]; intros acc; cbn [fold_left List.length].
  - lia.
  - rewrite IH, length_app, encodeByte_length. lia.
Qed.

Lemma encodeByteArray_len (array : option (list Z)) :
  len (encodeByteArray array) = (4 * len array)%nat.
Proof.
  destruct array as [l|]; cbn [encodeByteArray len]; [|reflexivity].
  rewrite encode_fold_length. reflexivity.
Qed.

Lemma lastn_skipn {A : Type} (n k : nat) (l : list A) :
  List.length l = (k + n)%nat -> lastn n l = skipn k l.
Proof.
  intros Hl. unfold lastn. f_equal. lia.
Qed.

Lemma lastn_length {A : Type} (n : nat) (l : list A) :
  (n <= List.length l)%nat -> List.length (lastn n l) = n.
Proof.
  intros Hn. unfold lastn. rewrite length_skipn. lia.
Qed.

(** The padding loop needs at most one pass: two passes of fuel always
    suffice, so [decodeHexString] never takes its fuel branch. *)
Lemma padLoop_total (value : string) :
  exists padded, padLoop 2 value = Some padded
                 /\ Nat.modulo (String.length padded) 2 = 0%nat.
Proof.
  cbn [padLoop].
  destruct (Nat.eqb (Nat.modulo (String.length value) 2) 0) eqn:E.
  - exists value. split; [reflexivity | apply Nat.eqb_eq, E].
  - cbn [negb]. apply Nat.eqb_neq in E.
    assert (Hodd : Nat.modulo (String.length (String "0"%char value)) 2 = 0%nat).
    { cbn [String.length].
      pose proof (Nat.mod_upper_bound (String.length value) 2 ltac:(lia)) as Hb.
      pose proof (Nat.div_mod_eq (String.length value) 2) as Hd.
      pose proof (Nat.div_mod_eq (S (String.length value)) 2) as Hd'.
      pose proof (Nat.mod_upper_bound (S (String.length value)) 2 ltac:(lia)) as Hb'.
      lia. }
    rewrite Hodd. cbn [Nat.eqb negb].
    exists (String "0"%char value). split; [reflexivity | exact Hodd].
Qed.

(** C5.  For every byte [b], [encodeByte b] has exactly 4 bytes; read as 8
    nibbles, high nibble first, nibble [i] is [0xE] when bit [7 - i] of [b]
    (most significant first) is 1 and [0x8] when it is 0; and the inverse
    nibble mapping ([0x8] to 0, [0xE] to 1) applied to the output gives [b]
    back. *)
Theorem encodeByte_roundtrip :
  forall b : Z,
    0 <= b < 256 ->
    List.length (encodeByte b) = 4%nat
    /\ nibbles (encodeByte b) = map (nibble_of_bit b) (seq 0 8)
    /\ decodeByte (encodeByte b) = Some b.
Proof.
  intros b Hb. split; [apply encodeByte_length|].
  assert (Hn : forallb (fun x => list_Z_eqb (nibbles (encodeByte x))
                                            (map (nibble_of_bit x) (seq 0 8)))
                       all_bytes = true) by (vm_compute; reflexivity).
  assert (Hd : forallb (fun x => match decodeByte (encodeByte x) with
                                 | Some y => y =? x
                                 | None => false
                                 end) all_bytes = true) by (vm_compute; reflexivity).
  split.
  - apply list_Z_eqb_eq. exact (byte_forall _ Hn b Hb).
  - pose proof (byte_forall _ Hd b Hb) as H. cbv beta in H.
    destruct (decodeByte (encodeByte b)) as [y|]; [|discriminate].
    apply Z.eqb_eq in H. congruence.
Qed.

Lemma encodeByte_roundtrip_witness :
  0 <= 13 < 256 /\ decodeByte (encodeByte 13) = Some 13.
Proof.
  split; [lia|]. apply (encodeByte_roundtrip 13). lia.
Defined.

(** C4.  For every command byte: the encoded address is four times as long
    as the address; when the address has exactly 3 bytes the payload is the
    preamble [{0x80,0,0,0}], then the last 10 of the 12 bytes of the encoded
    address, then the last 2 of the 4 bytes of the encoded command, 16 bytes
    in all; for any other address, [nil] included, the result is the
    internal-invariant error. *)
Theorem encodeCommandPayload_layout :
  forall (cid : option (list Z)) (cmd : Command),
    0 <= cmd < 256 ->
    len (encodeByteArray cid) = (4 * len cid)%nat
    /\ (len cid = 3%nat ->
        exists encoded_cid payload,
          encodeByteArray cid = Some encoded_cid
          /\ List.length encoded_cid = 12%nat
          /\ List.length (encodeByte cmd) = 4%nat
          /\ payload = [128; 0; 0; 0] ++ lastn 10 encoded_cid
                                      ++ lastn 2 (encodeByte cmd)
          /\ encodeCommandPayload cid cmd = Ok payload
          /\ List.length payload = 16%nat)
    /\ (len cid <> 3%nat -> encodeCommandPayload cid cmd = Err ErrAppError).
Proof.
  intros cid cmd Hcmd.
  pose proof (encodeByteArray_len cid) as Hlen.
  split; [exact Hlen|].
  unfold encodeCommandPayload. rewrite (byte_of_byte cmd Hcmd).
  cbn [len]. rewrite encodeByte_length. cbn [Nat.eqb negb].
  split.
  - intros H3. rewrite H3 in Hlen.
    destruct (encodeByteArray cid) as [encoded_cid|] eqn:Henc;
      cbn [len] in Hlen; [|discriminate].
    exists encoded_cid, ([128; 0; 0; 0] ++ lastn 10 encoded_cid
                                        ++ lastn 2 (encodeByte cmd)).
    change (4 * 3)%nat with 12%nat in Hlen.
    split; [reflexivity|]. split; [exact Hlen|].
    split; [reflexivity|]. split; [reflexivity|]. split.
    + cbn [len]. rewrite Hlen. cbn [Nat.eqb negb slice_from].
      rewrite (lastn_skipn 10 2 encoded_cid) by (rewrite Hlen; reflexivity).
      rewrite (lastn_skipn 2 2 (encodeByte cmd))
        by (rewrite encodeByte_length; reflexivity).
      unfold OOK_PREAMBLE. cbn [app]. reflexivity.
    + rewrite !length_app, !lastn_length
        by (rewrite ?encodeByte_length, ?Hlen; cbn; lia).
      reflexivity.
  - intros H3.
    destruct (Nat.eqb (len (encodeByteArray cid)) 12) eqn:E; [|reflexivity].
    apply Nat.eqb_eq in E. lia.
Qed.

Lemma encodeCommandPayload_layout_witness :
  len (Some [6; 198; 198]) = 3%nat
  /\ (exists payload, encodeCommandPayload (Some [6; 198; 198]) OOK_ON_1 = Ok payload
                      /\ List.length payload = 16%nat)
  /\ encodeCommandPayload (@None (list Z)) OOK_ON_1 = Err ErrAppError.
Proof.
  split; [reflexivity|].
  destruct (encodeCommandPayload_layout (Some [6; 198; 198]) OOK_ON_1
              ltac:(unfold OOK_ON_1; lia)) as [_ [H3 _]].
  destruct (encodeCommandPayload_layout None OOK_ON_1
              ltac:(unfold OOK_ON_1; lia)) as [_ [_ Hn]].
  split.
  - destruct (H3 eq_refl) as (e & p & _ & _ & _ & _ & Hp & Hl).
    exists p. split; assumption.
  - apply Hn. cbn. lia.
Defined.

(** C6.  The address string ["6C6C6"] is padded on the left to ["06C6C6"]
    and decodes to [{0x06,0xC6,0xC6}] (it is also what a driver opened
    with the default configuration holds), and the payload built from that
    address and [ON_ALL = 0x0D] is the one fixed 16-byte sequence below. *)
Theorem golden_payload :
  padLoop 2 "6C6C6" = Some "06C6C6"%string
  /\ decodeHexString "6C6C6" = Ok [6; 198; 198]
  /\ Open board_config = Ok board_driver
  /\ cid board_driver = Some [6; 198; 198]
  /\ OOK_ON_ALL = 13
  /\ encodeCommandPayload (Some [6; 198; 198]) OOK_ON_ALL
     = Ok [128; 0; 0; 0; 142; 232; 238; 136; 142; 232; 238; 136; 142; 232;
           238; 142].
Proof.
  repeat match goal with
         | |- _ /\ _ => split
         end; vm_compute; reflexivity.
Qed.

(* ================================================================== *)
(** * Properties of the driver *)

Section Properties.

Context {OTMessage : Type}.
Variable Decode : list Z -> option OTMessage * option error.

Local Abbreviation W := (World OTMessage).

(** ** The transceiver *)

Lemma issued_app (w w' : W) (l : list RadioCall) :
  calls (radio w') = calls (radio w) ++ l -> issued w w' = l.
Proof.
  unfold issued. intros ->.
  rewrite skipn_app, skipn_all, Nat.sub_diag. reflexivity.
Qed.

Lemma published_app (w w' : W) (l : list (monitor_rx_event OTMessage)) :
  pubsub w' = pubsub w ++ l -> published w w' = l.
Proof.
  unfold published. intros ->.
  rewrite skipn_app, skipn_all, Nat.sub_diag. reflexivity.
Qed.

Lemma perform_inv (c : RadioCall) (r r' : Radio) (e : option error) :
  perform c r = (e, r') ->
  calls r' = calls r ++ [c]
  /\ faults r' = tl (faults r)
  /\ e = pending_fault r
  /\ match e with
     | None => Mode r' = Mode (effect c r)
               /\ Modulation r' = Modulation (effect c r)
     | Some _ => Mode r' = Mode r /\ Modulation r' = Modulation r
     end.
Proof.
  unfold perform, next_fault, issue, pending_fault. cbn [faults].
  destruct (faults r) as [|[err|] fs]; intros H; inversion H; subst; clear H;
    cbn [faults tl]; repeat split; destruct c; reflexivity.
Qed.

Lemma call_inv (c : RadioCall) (w w' : W) (e : option error) :
  call c w = (e, w') ->
  only_radio w w'
  /\ calls (radio w') = calls (radio w) ++ [c]
  /\ faults (radio w') = tl (faults (radio w))
  /\ e = pending_fault (radio w)
  /\ match e with
     | None => Mode (radio w') = Mode (effect c (radio w))
               /\ Modulation (radio w') = Modulation (effect c (radio w))
     | Some _ => Mode (radio w') = Mode (radio w)
                 /\ Modulation (radio w') = Modulation (radio w)
     end.
Proof.
  unfold call. destruct (perform c (radio w)) as [e0 r] eqn:E.
  intros H; inversion H; subst; clear H. cbn [radio].
  split; [repeat split | exact (perform_inv _ _ _ _ E)].
Qed.

Lemma only_radio_refl (w : W) : only_radio w w.
Proof. repeat split. Qed.

Lemma only_radio_trans (w1 w2 w3 : W) :
  only_radio w1 w2 -> only_radio w2 w3 -> only_radio w1 w3.
Proof.
  unfold only_radio. intros (A1 & A2 & A3 & A4 & A5) (B1 & B2 & B3 & B4 & B5).
  repeat split; congruence.
Qed.

(** What the getters report after a run of calls depends only on what
    they reported before it. *)
Lemma settle_getters (cs : list RadioCall) :
  forall r1 r2 : Radio,
    Mode r1 = Mode r2 -> Modulation r1 = Modulation r2 ->
    Mode (settle cs r1) = Mode (settle cs r2)
    /\ Modulation (settle cs r1) = Modulation (settle cs r2).
Proof.
  unfold settle.
  induction cs as [|c cs IH]; intros r1 r2 H1 H2; cbn [fold_left].
  - split; assumption.
  - apply IH; destruct c; cbn; first [assumption | reflexivity].
Qed.

Lemma settle_keeps_Modulation (l : list RadioCall) :
  forall r : Radio,
    forallb (fun c => negb (is_SetModulation c)) l = true ->
    Modulation (settle l r) = Modulation r.
Proof.
  unfold settle.
  induction l as [|c l IH]; intros r Hl; cbn [fold_left]; [reflexivity|].
  cbn [forallb] in Hl. apply andb_prop in Hl. destruct Hl as [Hc Hl].
  rewrite (IH _ Hl). destruct c; try reflexivity. discriminate.
Qed.

(** Both configuration sequences set the modulation in their second step
    and never again: where a sequence stopped decides what [Modulation]
    reports. *)
Lemma settle_prefix_Modulation (m : RFMModulation)
      (tail done rest : list RadioCall) (c : RadioCall) (r : Radio) :
  forallb (fun c' => negb (is_SetModulation c')) tail = true ->
  SetMode RFM_MODE_STDBY :: SetModulation m :: tail = done ++ c :: rest ->
  Modulation (settle done r)
  = if (2 <=? List.length done)%nat then m else Modulation r.
Proof.
  intros Ht Hs. destruct done as [|x [|y done']].
  - reflexivity.
  - cbn [app] in Hs. inversion Hs; subst. reflexivity.
  - cbn [app] in Hs. inversion Hs; subst.
    rewrite forallb_app in Ht. apply andb_prop in Ht. destruct Ht as [Hd _].
    cbn [settle fold_left]. fold (settle done' (effect (SetModulation m)
                                                  (effect (SetMode RFM_MODE_STDBY) r))).
    rewrite (settle_keeps_Modulation _ _ Hd). reflexivity.
Qed.

(** A chain of calls either runs to its end, or stops right after the
    first call that fails; nothing outside the transceiver is touched. *)
Lemma run_calls_inv (cs : list RadioCall) :
  forall (w w' : W) (e : option error),
    run_calls cs w = (e, w') ->
    only_radio w w'
    /\ match e with
       | None => calls (radio w') = calls (radio w) ++ cs
                 /\ Mode (radio w') = Mode (settle cs (radio w))
                 /\ Modulation (radio w') = Modulation (settle cs (radio w))
       | Some err =>
           exists done c rest,
             cs = done ++ c :: rest
             /\ calls (radio w') = calls (radio w) ++ done ++ [c]
             /\ In (Some err) (faults (radio w))
             /\ Mode (radio w') = Mode (settle done (radio w))
             /\ Modulation (radio w') = Modulation (settle done (radio w))
       end.
Proof.
  induction cs as [|c cs IH]; intros w w' e H.
  - cbn in H. inversion H; subst. split; [apply only_radio_refl|].
    rewrite app_nil_r. repeat split.
  - cbn [run_calls] in H. unfold guard, bind in H.
    destruct (call c w) as [[err|] w1] eqn:Ec.
    + cbv beta iota in H. unfold ret, raise, Raise_error in H.
      inversion H; subst; clear H.
      apply call_inv in Ec. destruct Ec as (Hf & Hc & _ & Hp & Hm & Hd).
      split; [exact Hf|]. exists [], c, cs. cbn [app].
      split; [reflexivity|]. split; [exact Hc|].
      split; [|split; [exact Hm | exact Hd]].
      unfold pending_fault in Hp.
      destruct (faults (radio w)) as [|[x|] fs]; try discriminate.
      inversion Hp; subst. left; reflexivity.
    + cbv beta iota in H. apply call_inv in Ec.
      destruct Ec as (Hf & Hc & Hfs & _ & Hm & Hd).
      apply IH in H. destruct H as (Hf' & H).
      split; [exact (only_radio_trans _ _ _ Hf Hf')|].
      destruct e as [err|].
      * destruct H as (done & c' & rest & -> & Hc' & Hin & Hm' & Hd').
        exists (c :: done), c', rest. cbn [app]. split; [reflexivity|].
        split; [rewrite Hc', Hc, <- app_assoc; reflexivity|]. split.
        -- rewrite Hfs in Hin. destruct (faults (radio w)); [destruct Hin|].
           right. exact Hin.
        -- cbn [settle fold_left]. fold (settle done (effect c (radio w))).
           destruct (settle_getters done _ _ Hm Hd) as [S1 S2]. split; congruence.
      * destruct H as (Hc' & Hm' & Hd').
        split; [rewrite Hc', Hc, <- app_assoc; reflexivity|].
        cbn [settle fold_left]. fold (settle cs (effect c (radio w))).
        destruct (settle_getters cs _ _ Hm Hd) as [S1 S2]. split; congruence.
Qed.

Lemma setOOKMode_run (w : W) : setOOKMode w = run_calls ookSequence w.
Proof. reflexivity. Qed.

Lemma setFSKMode_run (w : W) : setFSKMode w = run_calls fskSequence w.
Proof. reflexivity. Qed.

(** ** Indicators *)

Lemma SetLED_single_inv (led : LED) (state : GPIOState) (w w' : W) (e : option error) :
  SetLED_single led state w = (e, w') -> only_gpio w w'.
Proof.
  unfold SetLED_single, bind, get_this, gpio_call, ret.
  repeat match goal with
         | |- context [if ?b then _ else _] => destruct b
         end;
    intros H; inversion H; subst; repeat split.
Qed.

Lemma only_gpio_trans (w1 w2 w3 : W) :
  only_gpio w1 w2 -> only_gpio w2 w3 -> only_gpio w1 w3.
Proof.
  unfold only_gpio. intros (A1 & A2 & A3 & A4 & A5) (B1 & B2 & B3 & B4 & B5).
  repeat split; congruence.
Qed.

Lemma SetLED_inv (led : LED) (state : GPIOState) (w w' : W) (e : option error) :
  SetLED led state w = (e, w') -> only_gpio w w'.
Proof.
  unfold SetLED. destruct (led =? LED_ALL)%N; [|apply SetLED_single_inv].
  unfold guard, bind, get_this. cbv beta iota.
  assert (Hopt : forall (b : bool) l (w0 w1 : W) e0,
             (if b then SetLED_single l state else ret None) w0 = (e0, w1) ->
             only_gpio w0 w1).
  { intros [|] l w0 w1 e0 H0; [exact (SetLED_single_inv _ _ _ _ _ H0)|].
    inversion H0; subst. repeat split. }
  destruct ((if negb (led1 (this w) =? GPIO_PIN_NONE)%N
             then SetLED_single LED_1 state else ret None) w)
    as [[err|] w1] eqn:E1; cbv beta iota.
  - intros H; inversion H; subst. exact (Hopt _ _ _ _ _ E1).
  - destruct ((if negb (led2 (this w) =? GPIO_PIN_NONE)%N
               then SetLED_single LED_2 state else ret None) w1)
      as [[err|] w2] eqn:E2; cbv beta iota;
      intros H; inversion H; subst;
      exact (only_gpio_trans _ _ _ (Hopt _ _ _ _ _ E1) (Hopt _ _ _ _ _ E2)).
Qed.

(** ** Transmit *)

Lemma put_mode_inv (m : MiHomeMode) (w w' : W) (u : unit) :
  put_mode m w = (u, w') ->
  this w' = set_mode m (this w) /\ radio w' = radio w /\ gpio w' = gpio w
  /\ pubsub w' = pubsub w /\ log w' = log w /\ now w' = now w.
Proof.
  unfold put_mode. intros H; inversion H; subst. repeat split.
Qed.

(** A [SendControl] that returns success did exactly one of two things:
    it applied the control configuration and recorded the control mode, or,
    the configuration being in place, it re-armed transmit and wrote the
    payload.  Either way the configuration is in place afterwards. *)
Lemma SendControl_ok (cid : option (list Z)) (cmd : Command) (rep : N) (w w' : W) :
  SendControl cid cmd rep w = (None, w') ->
  exists payload,
    encodeCommandPayload cid cmd = Ok payload
    /\ needs_OOK w' = false
    /\ pubsub w' = pubsub w
    /\ if needs_OOK w
       then calls (radio w') = calls (radio w) ++ ookSequence
            /\ this w' = set_mode MIHOME_MODE_CONTROL (this w)
            /\ gpio w' = gpio w
       else calls (radio w')
            = calls (radio w) ++ [SetMode RFM_MODE_TX; SetSequencer true;
                                  WritePayload payload rep]
            /\ this w' = this w.
Proof.
  unfold SendControl.
  destruct ((rep =? 0)%N || match cid with None => true | Some _ => false end);
    [intros H; inversion H|].
  destruct (encodeCommandPayload cid cmd) as [payload|e] eqn:Ep;
    [|intros H; inversion H].
  unfold bind at 1 2. unfold radio_Modulation, get_this. cbv beta iota.
  change (negb (RFMModulation_beq (Modulation (radio w)) RFM_MODULATION_OOK)
          || negb (MiHomeMode_beq (mode (this w)) MIHOME_MODE_CONTROL))
    with (needs_OOK w).
  destruct (needs_OOK w) eqn:En; intros H; exists payload;
    (split; [reflexivity|]); unfold guard, bind in H.
  - rewrite setOOKMode_run in H.
    destruct (run_calls ookSequence w) as [[e|] w1] eqn:Er;
      cbv beta iota in H; [inversion H|].
    destruct (put_mode MIHOME_MODE_CONTROL w1) as [u w2] eqn:Em.
    unfold ret in H. inversion H; subst; clear H.
    apply run_calls_inv in Er. destruct Er as ((F1 & F2 & F3 & F4 & F5) & Hc & _ & Hd).
    apply put_mode_inv in Em. destruct Em as (P1 & P2 & P3 & P4 & P5 & P6).
    split; [|split; [congruence|]].
    + unfold needs_OOK. rewrite P1, P2, Hd. reflexivity.
    + rewrite P1, P2, P3, F1, F2. repeat split. exact Hc.
  - destruct (call (SetMode RFM_MODE_TX) w) as [[e|] w1] eqn:E1;
      cbv beta iota in H; [inversion H|].
    destruct (call (SetSequencer true) w1) as [[e|] w2] eqn:E2;
      cbv beta iota in H; [inversion H|].
    destruct (SetLED LED_TX GPIO_HIGH w2) as [x w3] eqn:E3.
    destruct (call (WritePayload payload rep) w3) as [r w4] eqn:E4.
    destruct (SetLED LED_TX GPIO_LOW w4) as [y w5] eqn:E5.
    unfold ret in H. inversion H; subst; clear H.
    apply call_inv in E1. destruct E1 as ((A1 & _ & A3 & _) & Ac & _ & _ & _ & Ad).
    apply call_inv in E2. destruct E2 as ((B1 & _ & B3 & _) & Bc & _ & _ & _ & Bd).
    apply SetLED_inv in E3. destruct E3 as (C1 & C2 & C3 & _).
    apply call_inv in E4. destruct E4 as ((D1 & _ & D3 & _) & Dc & _ & _ & _ & Dd).
    apply SetLED_inv in E5. destruct E5 as (G1 & G2 & G3 & _).
    cbn [effect Modulation] in Ad, Bd, Dd.
    assert (Hmod : Modulation (radio w') = Modulation (radio w)) by congruence.
    assert (Hthis : this w' = this w) by congruence.
    split; [|split; [congruence|split; [|exact Hthis]]].
    + unfold needs_OOK in *. rewrite Hmod, Hthis. exact En.
    + rewrite G2, Dc, C2, Bc, Ac, <- !app_assoc. reflexivity.
Qed.

(** ** Receive *)

(** One non-nil payload: what the loop body publishes, clears and logs,
    by what the decoder returned. *)
Lemma receive_payload_inv (data : list Z) (w w' : W) (u : unit) :
  receive_payload Decode data w = (u, w') ->
  this w' = this w
  /\ Mode (radio w') = Mode (radio w)
  /\ Modulation (radio w') = Modulation (radio w)
  /\ match Decode data with
     | (Some m, reason_) =>
         pubsub w' = pubsub w ++ [mk_event (now w) m reason_]
         /\ match reason_ with
            | Some _ =>
                calls (radio w') = calls (radio w) ++ [ClearFIFO]
                /\ log w' = log w ++ match pending_fault (radio w) with
                                     | Some err => [err]
                                     | None => []
                                     end
            | None => calls (radio w') = calls (radio w) /\ log w' = log w
            end
     | (None, _) =>
         pubsub w' = pubsub w /\ calls (radio w') = calls (radio w)
         /\ log w' = log w
     end.
Proof.
  unfold receive_payload, bind.
  destruct (SetLED LED_RX GPIO_HIGH w) as [x w1] eqn:E1.
  apply SetLED_inv in E1. destruct E1 as (A1 & A2 & A3 & A4 & A5).
  destruct (Decode data) as [[m|] reason_].
  - unfold emitMessage, bind, time_Now, pubsub_Emit. cbv beta iota.
    cbn [this radio gpio pubsub log now].
    set (w2 := mkWorld (this w1) (radio w1) (gpio w1)
                       (pubsub w1 ++ [mk_event (now w1) m reason_])
                       (log w1) (S (now w1))).
    destruct reason_ as [f|].
    + destruct (call ClearFIFO w2) as [r w3] eqn:E3.
      apply call_inv in E3.
      destruct E3 as ((B1 & B2 & B3 & B4 & B5) & Bc & _ & Bp & Bm).
      assert (Bg : Mode (radio w3) = Mode (radio w2)
                   /\ Modulation (radio w3) = Modulation (radio w2))
        by (destruct r; exact Bm).
      destruct Bg as [Bg1 Bg2]. subst w2. cbn [this radio pubsub log now] in *.
      destruct r as [err|]; unfold log_Error, ret; cbv beta iota;
        match goal with
        | |- context [SetLED LED_RX GPIO_LOW ?x] =>
            destruct (SetLED LED_RX GPIO_LOW x) as [y w4] eqn:E4
        end;
        apply SetLED_inv in E4; destruct E4 as (C1 & C2 & C3 & C4 & C5);
        cbn [this radio pubsub log now] in *;
        intros H; inversion H; subst; clear H;
        rewrite <- A2, <- Bp;
        rewrite ?app_nil_r; repeat split; congruence.
    + unfold ret.
      destruct (SetLED LED_RX GPIO_LOW w2) as [y w4] eqn:E4.
      apply SetLED_inv in E4. destruct E4 as (C1 & C2 & C3 & C4 & C5).
      subst w2. cbn [this radio pubsub log now] in *.
      intros H; inversion H; subst; clear H.
      repeat split; congruence.
  - unfold ret.
    destruct (SetLED LED_RX GPIO_LOW w1) as [y w4] eqn:E4.
    apply SetLED_inv in E4. destruct E4 as (C1 & C2 & C3 & C4 & C5).
    intros H; inversion H; subst; clear H.
    repeat split; congruence.
Qed.

(** The calls [receive_payload] adds are none or one [ClearFIFO]. *)
Lemma receive_payload_calls (data : list Z) (w w' : W) (u : unit) :
  receive_payload Decode data w = (u, w') ->
  exists l, calls (radio w') = calls (radio w) ++ l
            /\ forallb is_rx_call l = true
            /\ filter is_ReadPayload l = [].
Proof.
  intros H. apply receive_payload_inv in H. destruct H as (_ & _ & _ & H).
  destruct (Decode data) as [[m|] [f|]].
  - destruct H as (_ & Hc & _). exists [ClearFIFO]. repeat split. exact Hc.
  - destruct H as (_ & Hc & _). exists []. rewrite app_nil_r. repeat split. exact Hc.
  - destruct H as (_ & Hc & _). exists []. rewrite app_nil_r. repeat split. exact Hc.
  - destruct H as (_ & Hc & _). exists []. rewrite app_nil_r. repeat split. exact Hc.
Qed.

Lemma radio_ReadPayload_inv (r got : read_result) (w w' : W) :
  radio_ReadPayload r w = (got, w') ->
  got = r /\ only_radio w w'
  /\ calls (radio w') = calls (radio w) ++ [ReadPayload]
  /\ Mode (radio w') = Mode (radio w)
  /\ Modulation (radio w') = Modulation (radio w)
  /\ faults (radio w') = faults (radio w).
Proof.
  unfold radio_ReadPayload. intros H; inversion H; subst. repeat split.
Qed.

(** The loop never touches the driver's fields or what the getters of the
    transceiver report, and issues receive calls only. *)
Lemma receive_loop_inv (ctx : list poll) :
  forall (w w' : W) (r : outcome),
    receive_loop Decode ctx w = (r, w') ->
    this w' = this w
    /\ Mode (radio w') = Mode (radio w)
    /\ Modulation (radio w') = Modulation (radio w)
    /\ exists l, calls (radio w') = calls (radio w) ++ l
                 /\ forallb is_rx_call l = true.
Proof.
  induction ctx as [|p ctx IH]; intros w w' r H; cbn [receive_loop] in H.
  - inversion H; subst. repeat split. exists []. rewrite app_nil_r. split; reflexivity.
  - destruct p as [|rr].
    + inversion H; subst. repeat split. exists []. rewrite app_nil_r. split; reflexivity.
    + unfold bind in H.
      destruct (radio_ReadPayload rr w) as [got w1] eqn:E1.
      apply radio_ReadPayload_inv in E1.
      destruct E1 as (-> & (A1 & _) & Ac & Am & Ad & _).
      destruct rr as [e| |data].
      * inversion H; subst. repeat split; try assumption.
        exists [ReadPayload]. split; [exact Ac | reflexivity].
      * apply IH in H. destruct H as (B1 & Bm & Bd & l & Bc & Bl).
        repeat split; try congruence.
        exists (ReadPayload :: l). split; [|exact Bl].
        rewrite Bc, Ac, <- app_assoc. reflexivity.
      * destruct (receive_payload Decode data w1) as [u w2] eqn:E2.
        pose proof (receive_payload_calls _ _ _ _ E2) as (l2 & Cc & Cl & _).
        apply receive_payload_inv in E2. destruct E2 as (C1 & Cm & Cd & _).
        apply IH in H. destruct H as (B1 & Bm & Bd & l & Bc & Bl).
        repeat split; try congruence.
        exists (ReadPayload :: l2 ++ l). split.
        -- rewrite Bc, Cc, Ac, <- !app_assoc. reflexivity.
        -- cbn [forallb is_rx_call andb]. rewrite forallb_app, Cl, Bl. reflexivity.
Qed.

(** Once the loop has returned, nothing that is observed later matters. *)
Lemma receive_loop_returned_app (ctx more : list poll) :
  forall (w w' : W) (e : option error),
    receive_loop Decode ctx w = (Returned e, w') ->
    receive_loop Decode (ctx ++ more) w = (Returned e, w').
Proof.
  induction ctx as [|p ctx IH]; intros w w' e H; cbn [receive_loop app] in *.
  - inversion H.
  - destruct p as [|rr]; [exact H|].
    unfold bind in *.
    destruct (radio_ReadPayload rr w) as [got w1].
    destruct got as [e'| |data]; [exact H | exact (IH _ _ _ H) |].
    destruct (receive_payload Decode data w1) as [u w2].
    exact (IH _ _ _ H).
Qed.

(** Passes that read nothing or a payload keep the loop going: one read
    per pass, and the loop carries on with whatever is observed next. *)
Lemma receive_loop_goes_on (pre : list poll) :
  forallb goes_on pre = true ->
  forall w : W,
    exists (w1 : W) (l : list RadioCall),
      receive_loop Decode pre w = (Polling, w1)
      /\ calls (radio w1) = calls (radio w) ++ l
      /\ List.length (filter is_ReadPayload l) = List.length pre
      /\ forall rest, receive_loop Decode (pre ++ rest) w
                      = receive_loop Decode rest w1.
Proof.
  induction pre as [|p pre IH]; intros Hgo w.
  - exists w, []. rewrite app_nil_r. repeat split.
  - cbn [forallb] in Hgo. apply andb_prop in Hgo. destruct Hgo as [Hp Hgo].
    destruct p as [|[e| |data]]; try discriminate; cbn [receive_loop app]; unfold bind.
    + destruct (radio_ReadPayload ReadNil w) as [got w0] eqn:E0.
      apply radio_ReadPayload_inv in E0. destruct E0 as (-> & _ & Ac & _).
      destruct (IH Hgo w0) as (w1 & l & Hl & Hc & Hn & Hrest).
      exists w1, (ReadPayload :: l). split; [exact Hl|]. split.
      * rewrite Hc, Ac, <- app_assoc. reflexivity.
      * split; [cbn; rewrite Hn; reflexivity | exact Hrest].
    + destruct (radio_ReadPayload (ReadData data) w) as [got w0] eqn:E0.
      apply radio_ReadPayload_inv in E0. destruct E0 as (-> & _ & Ac & _).
      destruct (receive_payload Decode data w0) as [u w2] eqn:E2.
      apply receive_payload_calls in E2. destruct E2 as (l2 & Cc & _ & Cn).
      destruct (IH Hgo w2) as (w1 & l & Hl & Hc & Hn & Hrest).
      exists w1, (ReadPayload :: l2 ++ l). split; [exact Hl|]. split.
      * rewrite Hc, Cc, Ac, <- !app_assoc. reflexivity.
      * split; [|exact Hrest].
        cbn [filter is_ReadPayload List.length].
        rewrite filter_app, Cn. cbn [app]. rewrite Hn. reflexivity.
Qed.

(** [Receive] is its mode set-up followed by the loop: the set-up is what
    [Receive] does on no observation at all. *)
Lemma Receive_split (ctx : list poll) (w : W) :
  Receive Decode ctx MIHOME_MODE_MONITOR w
  = match Receive Decode [] MIHOME_MODE_MONITOR w with
    | (Polling, wp) => receive_loop Decode ctx wp
    | other => other
    end.
Proof.
  unfold Receive. cbn [MiHomeMode_beq negb].
  set (A := bind radio_Modulation _). set (B := bind radio_Mode _).
  unfold guard. unfold bind at 1 3.
  destruct (A w) as [[e|] w1]; [reflexivity|].
  unfold bind. destruct (B w1) as [[e|] w2]; reflexivity.
Qed.

Lemma Receive_other_mode (ctx : list poll) (m : MiHomeMode) (w : W) :
  m <> MIHOME_MODE_MONITOR ->
  Receive Decode ctx m w = (Returned (Some ErrNotImplemented), w).
Proof.
  intros Hm. unfold Receive. destruct m; try reflexivity. contradiction.
Qed.

(** The set-up, when it lets the loop start: the monitor configuration is
    in place, the transceiver is receiving, nothing was published; the
    configuration sequence was issued if and only if it was needed. *)
Lemma Receive_enter (w wp : W) :
  Receive Decode [] MIHOME_MODE_MONITOR w = (Polling, wp) ->
  needs_FSK wp = false
  /\ Mode (radio wp) = RFM_MODE_RX
  /\ pubsub wp = pubsub w
  /\ calls (radio wp)
     = calls (radio w)
       ++ (if needs_FSK w then fskSequence else [])
       ++ [if needs_FSK w then SetMode RFM_MODE_RX
           else if RFMMode_beq (Mode (radio w)) RFM_MODE_RX then ClearFIFO
                else SetMode RFM_MODE_RX].
Proof.
  unfold Receive. cbn [MiHomeMode_beq negb receive_loop].
  unfold guard. unfold bind at 1 2 3. unfold radio_Modulation at 1, get_this at 1.
  cbv beta iota.
  change (negb (RFMModulation_beq (Modulation (radio w)) RFM_MODULATION_FSK)
          || negb (MiHomeMode_beq (mode (this w)) MIHOME_MODE_MONITOR))
    with (needs_FSK w).
  assert (Hrx : forall (w1 w2 : W) (r : option error),
             (bind radio_Mode
                   (fun m => if negb (RFMMode_beq m RFM_MODE_RX)
                             then call (SetMode RFM_MODE_RX)
                             else call ClearFIFO)) w1 = (r, w2) ->
             r = None ->
             Mode (radio w2) = RFM_MODE_RX
             /\ Modulation (radio w2) = Modulation (radio w1)
             /\ only_radio w1 w2
             /\ calls (radio w2)
                = calls (radio w1)
                  ++ [if RFMMode_beq (Mode (radio w1)) RFM_MODE_RX
                      then ClearFIFO else SetMode RFM_MODE_RX]).
  { intros w1 w2 r H ->. unfold bind, radio_Mode in H. cbv beta iota in H.
    destruct (RFMMode_beq (Mode (radio w1)) RFM_MODE_RX) eqn:Em; cbn [negb] in H;
      apply call_inv in H; destruct H as (Hf & Hc & _ & _ & Hm & Hd);
      cbn [effect Mode Modulation] in Hm, Hd; repeat split;
      try exact Hc; try exact Hd; try apply Hf.
    - rewrite Hm. apply internal_RFMMode_dec_bl. exact Em.
    - exact Hm. }
  destruct (needs_FSK w) eqn:En.
  - unfold bind at 1. rewrite setFSKMode_run.
    destruct (run_calls fskSequence w) as [[e|] w1] eqn:Er;
      cbv beta iota; [intros H; inversion H|].
    unfold bind at 1.
    destruct (put_mode MIHOME_MODE_MONITOR w1) as [u w2] eqn:Ep.
    unfold ret at 1. cbv beta iota. unfold bind at 1.
    match goal with
    | |- context [bind radio_Mode ?k w2] =>
        destruct (bind radio_Mode k w2) as [[e|] w3] eqn:Eb
    end; cbv beta iota; unfold ret, raise, Raise_outcome;
      intros H; inversion H; subst; clear H.
    apply run_calls_inv in Er. destruct Er as ((F1 & _ & F3 & _) & Fc & Fm & Fd).
    apply put_mode_inv in Ep. destruct Ep as (P1 & P2 & _ & P4 & _).
    destruct (Hrx _ _ _ Eb eq_refl) as (Rm & Rd & (R1 & _ & R3 & _) & Rc).
    assert (Hstd : Mode (radio w2) = RFM_MODE_STDBY) by (rewrite P2, Fm; reflexivity).
    assert (Hfsk : Modulation (radio w2) = RFM_MODULATION_FSK)
      by (rewrite P2, Fd; reflexivity).
    rewrite Hstd in Rc. cbn [RFMMode_beq] in Rc.
    repeat split; try congruence.
    + unfold needs_FSK. rewrite Rd, Hfsk, R1, P1. reflexivity.
    + rewrite Rc, P2, Fc, <- app_assoc. reflexivity.
  - unfold ret at 1. cbv beta iota. unfold bind at 1.
    match goal with
    | |- context [bind radio_Mode ?k w] =>
        destruct (bind radio_Mode k w) as [[e|] w3] eqn:Eb
    end; cbv beta iota; unfold ret, raise, Raise_outcome;
      intros H; inversion H; subst; clear H.
    destruct (Hrx _ _ _ Eb eq_refl) as (Rm & Rd & (R1 & _ & R3 & _) & Rc).
    split; [unfold needs_FSK in *; rewrite Rd, R1; exact En|].
    split; [exact Rm|]. split; [exact R3 | exact Rc].
Qed.

(** ** The mode decision *)

Lemma SendControl_configures (cid : option (list Z)) (cmd : Command) (rep : N)
      (payload : list Z) (w : W) :
  rep <> 0%N -> encodeCommandPayload cid cmd = Ok payload ->
  needs_OOK w = true ->
  SendControl cid cmd rep w = reconfigure_control w.
Proof.
  intros Hrep Hp Hn. unfold SendControl.
  destruct cid as [a|]; [|cbv in Hp; discriminate].
  apply N.eqb_neq in Hrep. rewrite Hrep, Hp. cbn [orb].
  unfold bind at 1 2. unfold radio_Modulation, get_this. cbv beta iota.
  change (negb (RFMModulation_beq (Modulation (radio w)) RFM_MODULATION_OOK)
          || negb (MiHomeMode_beq (mode (this w)) MIHOME_MODE_CONTROL))
    with (needs_OOK w).
  rewrite Hn. reflexivity.
Qed.

Lemma SendControl_transmits (cid : option (list Z)) (cmd : Command) (rep : N)
      (payload : list Z) (w : W) :
  rep <> 0%N -> encodeCommandPayload cid cmd = Ok payload ->
  needs_OOK w = false ->
  SendControl cid cmd rep w = transmit payload rep w.
Proof.
  intros Hrep Hp Hn. unfold SendControl.
  destruct cid as [a|]; [|cbv in Hp; discriminate].
  apply N.eqb_neq in Hrep. rewrite Hrep, Hp. cbn [orb].
  unfold bind at 1 2. unfold radio_Modulation, get_this. cbv beta iota.
  change (negb (RFMModulation_beq (Modulation (radio w)) RFM_MODULATION_OOK)
          || negb (MiHomeMode_beq (mode (this w)) MIHOME_MODE_CONTROL))
    with (needs_OOK w).
  rewrite Hn. reflexivity.
Qed.

Lemma Receive_configures (ctx : list poll) (w : W) :
  needs_FSK w = true ->
  Receive Decode ctx MIHOME_MODE_MONITOR w
  = guard reconfigure_monitor (guard arm_receive (receive_loop Decode ctx)) w.
Proof.
  intros Hn. unfold Receive. cbn [MiHomeMode_beq negb].
  unfold guard at 1 4. unfold bind at 1 2 3 6.
  unfold radio_Modulation, get_this. cbv beta iota.
  change (negb (RFMModulation_beq (Modulation (radio w)) RFM_MODULATION_FSK)
          || negb (MiHomeMode_beq (mode (this w)) MIHOME_MODE_MONITOR))
    with (needs_FSK w).
  rewrite Hn. reflexivity.
Qed.

Lemma Receive_configured (ctx : list poll) (w : W) :
  needs_FSK w = false ->
  Receive Decode ctx MIHOME_MODE_MONITOR w
  = guard arm_receive (receive_loop Decode ctx) w.
Proof.
  intros Hn. unfold Receive. cbn [MiHomeMode_beq negb].
  unfold guard at 1. unfold bind at 1 2 3.
  unfold radio_Modulation, get_this. cbv beta iota.
  change (negb (RFMModulation_beq (Modulation (radio w)) RFM_MODULATION_FSK)
          || negb (MiHomeMode_beq (mode (this w)) MIHOME_MODE_MONITOR))
    with (needs_FSK w).
  rewrite Hn. reflexivity.
Qed.

(** ** Sockets *)

Lemma each_socket_invalid (resolve : N -> Command * option error)
      (socket : N) (rest : list N) (c : Command) (err : error) (w : W) :
  resolve socket = (c, Some err) ->
  each_socket resolve (socket :: rest) w = (Some err, w).
Proof.
  intros Hr. cbn [each_socket]. rewrite Hr. reflexivity.
Qed.

Lemma each_socket_valid (resolve : N -> Command * option error)
      (socket : N) (rest : list N) (c : Command) (w : W) :
  resolve socket = (c, None) ->
  each_socket resolve (socket :: rest) w
  = match SendControl (cid (this w)) c (repeat (this w)) w with
    | (Some err, w1) => (Some err, w1)
    | (None, w1) => each_socket resolve rest w1
    end.
Proof.
  intros Hr. cbn [each_socket]. rewrite Hr.
  unfold guard, bind, get_this. cbv beta iota.
  destruct (SendControl (cid (this w)) c (repeat (this w)) w) as [[e|] w1];
    reflexivity.
Qed.

(** ** The claims about the driver *)

(** C1 (the code departs from the claim).  Whenever [SendControl], called
    with a non-nil address and a positive repeat count, finds that the
    control configuration has to be applied and returns success, the calls
    it issued are exactly the control configuration sequence: the radio was
    not put in TX mode, no payload was written and the TX indicator was not
    touched.  The first send after a mode change transmits nothing. *)
Theorem SendControl_mode_change_skips_transmit :
  forall (w w' : W) (cid : option (list Z)) (cmd : Command) (rep : N),
    cid <> None -> rep <> 0%N ->
    needs_OOK w = true ->
    SendControl cid cmd rep w = (None, w') ->
    issued w w' = ookSequence
    /\ mode (this w') = MIHOME_MODE_CONTROL
    /\ filter is_WritePayload (issued w w') = []
    /\ ~ In (SetMode RFM_MODE_TX) (issued w w')
    /\ gpio w' = gpio w.
Proof.
  intros w w' cid cmd rep _ _ Hn H.
  apply SendControl_ok in H. destruct H as (payload & _ & _ & _ & H).
  rewrite Hn in H. destruct H as (Hc & Ht & Hg).
  rewrite (issued_app _ _ _ Hc), Ht.
  split; [reflexivity|]. split; [reflexivity|]. split; [reflexivity|].
  split; [|exact Hg].
  cbn. intros Hin.
  repeat (destruct Hin as [Hin|Hin]; [discriminate|]). exact Hin.
Qed.

(** C3.  Of two consecutive successful [SendControl] calls the second
    issues no configuration call at all: it re-arms transmit (TX mode,
    sequencer on) and writes its payload, nothing else; and when the first
    call had to change mode, the two calls together issue the control
    sequence exactly once, at the start.  Likewise a [Receive] call that
    follows a successful [Receive] call issues receive calls only (switch to
    RX, clear FIFO, read payload), none of which belongs to the monitor
    sequence; and when the first call had to change mode, the two calls
    together issue the monitor sequence exactly once, at the start. *)
Theorem mode_transitions_idempotent :
  (forall (w w1 w2 : W) cid cmd rep cid' cmd' rep',
      SendControl cid cmd rep w = (None, w1) ->
      SendControl cid' cmd' rep' w1 = (None, w2) ->
      (exists payload',
          encodeCommandPayload cid' cmd' = Ok payload'
          /\ issued w1 w2 = [SetMode RFM_MODE_TX; SetSequencer true;
                             WritePayload payload' rep'])
      /\ (needs_OOK w = true ->
          issued w w1 = ookSequence
          /\ calls (radio w2) = calls (radio w) ++ ookSequence ++ issued w1 w2))
  /\ (forall (w w1 w2 : W) ctx ctx' r2,
         Receive Decode ctx MIHOME_MODE_MONITOR w = (Returned None, w1) ->
         Receive Decode ctx' MIHOME_MODE_MONITOR w1 = (r2, w2) ->
         forallb is_rx_call (issued w1 w2) = true
         /\ (needs_FSK w = true ->
             exists tail,
               calls (radio w2) = calls (radio w) ++ fskSequence ++ tail
               /\ forallb is_rx_call tail = true))
  /\ (forall c, In c fskSequence -> is_rx_call c = false).
Proof.
  split; [|split].
  - intros w w1 w2 cid cmd rep cid' cmd' rep' H1 H2.
    apply SendControl_ok in H1. destruct H1 as (p1 & _ & Hn1 & _ & H1).
    apply SendControl_ok in H2. destruct H2 as (p2 & Hp2 & _ & _ & H2).
    rewrite Hn1 in H2. destruct H2 as (Hc2 & _).
    pose proof (issued_app _ _ _ Hc2) as Hi2.
    split; [exists p2; split; assumption|].
    intros Hn. rewrite Hn in H1. destruct H1 as (Hc1 & _).
    split; [exact (issued_app _ _ _ Hc1)|].
    rewrite Hi2, Hc2, Hc1, <- app_assoc. reflexivity.
  - intros w w1 w2 ctx ctx' r2 H1 H2.
    (* the first call: set-up, then the loop until it returned *)
    rewrite Receive_split in H1.
    destruct (Receive Decode [] MIHOME_MODE_MONITOR w) as [[e|] wp] eqn:E0.
    { exfalso. inversion H1; subst.
      destruct (needs_FSK w) eqn:En.
      - rewrite (Receive_configures _ _ En) in E0.
        unfold guard, bind in E0.
        destruct (reconfigure_monitor w) as [[x|] wa]; cbv beta iota in E0;
          [inversion E0|].
        destruct (arm_receive wa) as [[x|] wb]; inversion E0.
      - rewrite (Receive_configured _ _ En) in E0.
        unfold guard, bind in E0.
        destruct (arm_receive w) as [[x|] wb]; inversion E0. }
    apply Receive_enter in E0. destruct E0 as (Hnp & _ & _ & Hcp).
    apply receive_loop_inv in H1. destruct H1 as (Ht1 & _ & Hd1 & l1 & Hc1 & Hl1).
    assert (Hn1 : needs_FSK w1 = false).
    { unfold needs_FSK in *. rewrite Hd1, Ht1. exact Hnp. }
    (* the second call: no configuration *)
    rewrite (Receive_configured _ _ Hn1) in H2.
    assert (H2' : exists l2, calls (radio w2) = calls (radio w1) ++ l2
                             /\ forallb is_rx_call l2 = true).
    { unfold guard, bind in H2.
      destruct (arm_receive w1) as [[x|] wa] eqn:Ea; cbv beta iota in H2.
      - unfold ret in H2. inversion H2; subst; clear H2.
        unfold arm_receive, bind, radio_Mode in Ea. cbv beta iota in Ea.
        destruct (negb (RFMMode_beq (Mode (radio w1)) RFM_MODE_RX));
          apply call_inv in Ea; destruct Ea as (_ & Hc & _);
          eexists; (split; [exact Hc | reflexivity]).
      - unfold arm_receive, bind, radio_Mode in Ea. cbv beta iota in Ea.
        apply receive_loop_inv in H2. destruct H2 as (_ & _ & _ & l & Hc & Hl).
        destruct (negb (RFMMode_beq (Mode (radio w1)) RFM_MODE_RX));
          apply call_inv in Ea; destruct Ea as (_ & Hca & _);
          eexists; (split; [rewrite Hc, Hca, <- app_assoc; reflexivity|]);
          cbn [app forallb is_rx_call andb]; exact Hl. }
    destruct H2' as (l2 & Hc2 & Hl2).
    split; [rewrite (issued_app _ _ _ Hc2); exact Hl2|].
    intros Hn. rewrite Hn in Hcp.
    exists ([SetMode RFM_MODE_RX] ++ l1 ++ l2). split.
    + rewrite Hc2, Hc1, Hcp, <- !app_assoc. reflexivity.
    + cbn [app forallb is_rx_call andb]. rewrite forallb_app, Hl1, Hl2. reflexivity.
  - intros c Hin. cbn in Hin.
    repeat (destruct Hin as [<-|Hin]; [reflexivity|]). destruct Hin.
Qed.

(** C7, as amended.  When a step of the control (resp. monitor)
    configuration sequence fails, no later step is issued, the driver's
    fields (its logical mode among them) are what they were, and a
    [SendControl] (resp. [Receive]) that ran the sequence returns that very
    error.  Whether the next call configures again is decided by the
    unchanged logical mode and by where the sequence stopped: it does, from
    the first step of the sequence, whenever the logical mode was not
    already the target mode, and also when the failure came in one of the
    first two steps; when the logical mode already was the target mode and
    the failure came after the set-modulation step, the next call goes
    straight to transmitting (resp. to arming the receiver). *)
Theorem config_failure_keeps_mode :
  forall (w w1 : W) (e : error),
    (setOOKMode w = (Some e, w1) ->
     this w1 = this w
     /\ (exists done c rest,
            ookSequence = done ++ c :: rest
            /\ issued w w1 = done ++ [c]
            /\ needs_OOK w1
               = if (2 <=? List.length done)%nat
                 then negb (MiHomeMode_beq (mode (this w)) MIHOME_MODE_CONTROL)
                 else needs_OOK w)
     /\ (needs_OOK w = true ->
         forall cid cmd rep payload,
           rep <> 0%N -> encodeCommandPayload cid cmd = Ok payload ->
           SendControl cid cmd rep w = (Some e, w1))
     /\ (mode (this w) <> MIHOME_MODE_CONTROL -> needs_OOK w1 = true)
     /\ (forall cid cmd rep payload,
            rep <> 0%N -> encodeCommandPayload cid cmd = Ok payload ->
            SendControl cid cmd rep w1
            = if needs_OOK w1 then reconfigure_control w1
              else transmit payload rep w1))
    /\ (setFSKMode w = (Some e, w1) ->
        this w1 = this w
        /\ (exists done c rest,
               fskSequence = done ++ c :: rest
               /\ issued w w1 = done ++ [c]
               /\ needs_FSK w1
                  = if (2 <=? List.length done)%nat
                    then negb (MiHomeMode_beq (mode (this w)) MIHOME_MODE_MONITOR)
                    else needs_FSK w)
        /\ (needs_FSK w = true ->
            forall ctx,
              Receive Decode ctx MIHOME_MODE_MONITOR w = (Returned (Some e), w1))
        /\ (mode (this w) <> MIHOME_MODE_MONITOR -> needs_FSK w1 = true)
        /\ (forall ctx,
               Receive Decode ctx MIHOME_MODE_MONITOR w1
               = if needs_FSK w1
                 then guard reconfigure_monitor
                            (guard arm_receive (receive_loop Decode ctx)) w1
                 else guard arm_receive (receive_loop Decode ctx) w1)).
Proof.
  intros w w1 e. split; intros H.
  - pose proof H as Hrun. rewrite setOOKMode_run in Hrun.
    apply run_calls_inv in Hrun.
    destruct Hrun as ((F1 & _) & done & c & rest & Hs & Hc & _ & _ & Hd).
    split; [exact F1|]. split; [|split; [|split]].
    + exists done, c, rest. split; [exact Hs|].
      split; [exact (issued_app _ _ _ Hc)|].
      unfold needs_OOK. rewrite F1, Hd.
      assert (Ht : forallb (fun c' => negb (is_SetModulation c'))
                           (skipn 2 ookSequence) = true) by reflexivity.
      rewrite (settle_prefix_Modulation RFM_MODULATION_OOK (skipn 2 ookSequence)
                 done rest c (radio w) Ht Hs).
      destruct (2 <=? List.length done)%nat; reflexivity.
    + intros Hn cid cmd rep payload Hrep Hp.
      rewrite (SendControl_configures _ _ _ _ _ Hrep Hp Hn).
      unfold reconfigure_control, guard, bind. rewrite H. reflexivity.
    + intros Hm. unfold needs_OOK. rewrite F1.
      destruct (mode (this w)); try (apply orb_true_r). contradiction.
    + intros cid cmd rep payload Hrep Hp.
      destruct (needs_OOK w1) eqn:Hn1.
      * exact (SendControl_configures _ _ _ _ _ Hrep Hp Hn1).
      * exact (SendControl_transmits _ _ _ _ _ Hrep Hp Hn1).
  - pose proof H as Hrun. rewrite setFSKMode_run in Hrun.
    apply run_calls_inv in Hrun.
    destruct Hrun as ((F1 & _) & done & c & rest & Hs & Hc & _ & _ & Hd).
    split; [exact F1|]. split; [|split; [|split]].
    + exists done, c, rest. split; [exact Hs|].
      split; [exact (issued_app _ _ _ Hc)|].
      unfold needs_FSK. rewrite F1, Hd.
      assert (Ht : forallb (fun c' => negb (is_SetModulation c'))
                           (skipn 2 fskSequence) = true) by reflexivity.
      rewrite (settle_prefix_Modulation RFM_MODULATION_FSK (skipn 2 fskSequence)
                 done rest c (radio w) Ht Hs).
      destruct (2 <=? List.length done)%nat; reflexivity.
    + intros Hn ctx. rewrite (Receive_configures _ _ Hn).
      unfold guard at 1. unfold bind at 1.
      unfold reconfigure_monitor, guard, bind. rewrite H. reflexivity.
    + intros Hm. unfold needs_FSK. rewrite F1.
      destruct (mode (this w)); try (apply orb_true_r). contradiction.
    + intros ctx. destruct (needs_FSK w1) eqn:Hn1.
      * exact (Receive_configures _ _ Hn1).
      * exact (Receive_configured _ _ Hn1).
Qed.

(** C2, as amended.  A pass of the receive loop that read a non-nil payload
    never returns: the loop goes on with the next observation.  If the
    decoder returned a message, one event is published, carrying the time,
    the message and the failure (or none); if it returned a message together
    with a failure, [ClearFIFO] is then called once, and when that call
    fails its error is appended to the log and goes no further.  If the
    decoder returned no message, nothing is published, logged or cleared,
    whatever failure it reported. *)
Theorem receive_pass_publishes :
  forall (data : list Z) (ctx' : list poll) (w : W),
    let w1 := snd (radio_ReadPayload (ReadData data) w) in
    let w2 := snd (receive_payload Decode data w1) in
    receive_loop Decode (Read (ReadData data) :: ctx') w
    = receive_loop Decode ctx' w2
    /\ issued w w1 = [ReadPayload]
    /\ match Decode data with
       | (Some m, reason_) =>
           published w w2 = [mk_event (now w) m reason_]
           /\ match reason_ with
              | Some _ =>
                  issued w1 w2 = [ClearFIFO]
                  /\ log w2 = log w ++ match pending_fault (radio w1) with
                                       | Some err => [err]
                                       | None => []
                                       end
              | None => issued w1 w2 = [] /\ log w2 = log w
              end
       | (None, _) =>
           published w w2 = [] /\ issued w1 w2 = [] /\ log w2 = log w
       end.
Proof.
  intros data ctx' w w1 w2. split; [|split].
  - cbn [receive_loop]. unfold bind. subst w2 w1.
    destruct (radio_ReadPayload (ReadData data) w) as [got wa] eqn:Ea.
    pose proof (radio_ReadPayload_inv _ _ _ _ Ea) as (-> & _).
    cbn [snd]. destruct (receive_payload Decode data wa) as [u wb].
    reflexivity.
  - apply issued_app. reflexivity.
  - assert (H1 : pubsub w1 = pubsub w /\ log w1 = log w /\ now w1 = now w)
      by (repeat split).
    destruct H1 as (Hp1 & Hl1 & Hn1).
    unfold w2. destruct (receive_payload Decode data w1) as [u wb] eqn:Eb.
    cbn [snd]. apply receive_payload_inv in Eb.
    destruct Eb as (_ & _ & _ & Eb).
    destruct (Decode data) as [[m|] reason_].
    + destruct Eb as (Hp & Eb). rewrite Hp1, Hn1 in Hp.
      split; [exact (published_app _ _ _ Hp)|].
      destruct reason_ as [f|]; destruct Eb as (Hc & Hl).
      * split; [exact (issued_app _ _ _ Hc) | congruence].
      * split; [apply issued_app; rewrite app_nil_r; exact Hc | congruence].
    + destruct Eb as (Hp & Hc & Hl).
      split; [apply published_app; rewrite app_nil_r; congruence|].
      split; [apply issued_app; rewrite app_nil_r; exact Hc | congruence].
Qed.

(** C8.  When the mode set-up of [Receive] succeeds and the cancellation
    signal has fired by the time the loop is entered, [Receive] returns
    success, has published nothing, and has read nothing.  And once a
    [Receive] call has returned, whatever is observed later changes neither
    its result nor the world it left: nothing is published after the
    return. *)
Theorem Receive_cancelled :
  forall (w wp : W) (rest : list poll),
    Receive Decode [] MIHOME_MODE_MONITOR w = (Polling, wp) ->
    Receive Decode (CtxDone :: rest) MIHOME_MODE_MONITOR w = (Returned None, wp)
    /\ published w wp = []
    /\ filter is_ReadPayload (issued w wp) = []
    /\ forall (ctx more : list poll) (m : MiHomeMode) (w0 w' : W) (e : option error),
        Receive Decode ctx m w0 = (Returned e, w') ->
        Receive Decode (ctx ++ more) m w0 = (Returned e, w').
Proof.
  intros w wp rest H0. split; [|split; [|split]].
  - rewrite Receive_split, H0. reflexivity.
  - apply Receive_enter in H0. destruct H0 as (_ & _ & Hp & _).
    apply published_app. rewrite app_nil_r. exact Hp.
  - apply Receive_enter in H0. destruct H0 as (_ & _ & _ & Hc).
    rewrite (issued_app _ _ _ Hc).
    destruct (needs_FSK w); [reflexivity|].
    destruct (RFMMode_beq (Mode (radio w)) RFM_MODE_RX); reflexivity.
  - intros ctx more m w0 w' e H.
    destruct (MiHomeMode_eq_dec m MIHOME_MODE_MONITOR) as [->|Hm].
    + rewrite Receive_split in H. rewrite Receive_split.
      destruct (Receive Decode [] MIHOME_MODE_MONITOR w0) as [[x|] wa];
        [exact H|].
      exact (receive_loop_returned_app _ _ _ _ _ H).
    + rewrite (Receive_other_mode _ _ _ Hm) in H.
      rewrite (Receive_other_mode _ _ _ Hm). exact H.
Qed.

(** C9.  Let the mode set-up of [Receive] succeed and let the passes [pre]
    of the loop each read nothing or a payload, leading to the world [w1].
    If the next read returns the error [e], [Receive] returns [e] itself at
    once, in the world [w1] with that one failed [ReadPayload] call added
    and nothing else: nothing is published, logged or signalled for that
    pass; the loop made one read per pass, this one included, and none
    after it, whatever would have been observed next. *)
Theorem Receive_read_error_is_fatal :
  forall (w wp : W) (pre rest : list poll) (e : error),
    Receive Decode [] MIHOME_MODE_MONITOR w = (Polling, wp) ->
    forallb goes_on pre = true ->
    exists w1 : W,
      Receive Decode pre MIHOME_MODE_MONITOR w = (Polling, w1)
      /\ let w' := snd (radio_ReadPayload (ReadErr e) w1) in
         Receive Decode (pre ++ Read (ReadErr e) :: rest) MIHOME_MODE_MONITOR w
         = (Returned (Some e), w')
         /\ issued w1 w' = [ReadPayload]
         /\ pubsub w' = pubsub w1 /\ log w' = log w1 /\ gpio w' = gpio w1
         /\ this w' = this w1
         /\ List.length (filter is_ReadPayload (issued wp w'))
            = S (List.length pre).
Proof.
  intros w wp pre rest e H0 Hgo.
  destruct (receive_loop_goes_on pre Hgo wp) as (w1 & l & Hl & Hc & Hn & Hrest).
  exists w1.
  split; [rewrite Receive_split, H0; exact Hl|].
  cbv zeta.
  split; [rewrite Receive_split, H0, Hrest; cbn [receive_loop]; unfold bind;
          destruct (radio_ReadPayload (ReadErr e) w1) as [got w'] eqn:Er;
          pose proof (radio_ReadPayload_inv _ _ _ _ Er) as (-> & _);
          reflexivity|].
  destruct (radio_ReadPayload (ReadErr e) w1) as [got w'] eqn:Er. cbn [snd].
  pose proof (radio_ReadPayload_inv _ _ _ _ Er)
    as (-> & (A1 & A2 & A3 & A4 & _) & Ac & _).
  split; [exact (issued_app _ _ _ Ac)|].
  repeat (split; [assumption|]).
  assert (Hall : calls (radio w') = calls (radio wp) ++ l ++ [ReadPayload])
    by (rewrite Ac, Hc, <- app_assoc; reflexivity).
  rewrite (issued_app _ _ _ Hall), filter_app, length_app, Hn.
  cbn. lia.
Qed.

(** A [SendControl] that finds the control configuration missing writes no
    payload, whatever it returns. *)
Lemma SendControl_needs_OOK_no_write (cid : option (list Z)) (cmd : Command)
      (rep : N) (w w' : W) (r : option error) :
  needs_OOK w = true ->
  SendControl cid cmd rep w = (r, w') ->
  exists l, calls (radio w') = calls (radio w) ++ l
            /\ filter is_WritePayload l = [].
Proof.
  intros Hn H.
  destruct r as [e|].
  - unfold SendControl in H.
    destruct ((rep =? 0)%N || match cid with None => true | Some _ => false end).
    { inversion H; subst. exists []. rewrite app_nil_r. split; reflexivity. }
    destruct (encodeCommandPayload cid cmd) as [payload|e'].
    2:{ inversion H; subst. exists []. rewrite app_nil_r. split; reflexivity. }
    unfold bind at 1 2 in H. unfold radio_Modulation, get_this in H.
    cbv beta iota in H.
    change (negb (RFMModulation_beq (Modulation (radio w)) RFM_MODULATION_OOK)
            || negb (MiHomeMode_beq (mode (this w)) MIHOME_MODE_CONTROL))
      with (needs_OOK w) in H.
    rewrite Hn in H. unfold guard, bind in H. rewrite setOOKMode_run in H.
    destruct (run_calls ookSequence w) as [[x|] w1] eqn:Er; cbv beta iota in H.
    + unfold ret, raise, Raise_error in H. inversion H; subst; clear H.
      apply run_calls_inv in Er.
      destruct Er as (_ & done & c & rest & Hs & Hc & _).
      exists (done ++ [c]). split; [exact Hc|].
      assert (Hf : filter is_WritePayload ookSequence = []) by reflexivity.
      rewrite Hs, filter_app in Hf. apply app_eq_nil in Hf. destruct Hf as [Hd Hr].
      rewrite filter_app, Hd. cbn [app filter] in *.
      destruct (is_WritePayload c); [discriminate | reflexivity].
    + unfold put_mode, ret in H. inversion H.
  - apply SendControl_ok in H. destruct H as (p & _ & _ & _ & H).
    rewrite Hn in H. destruct H as (Hc & _).
    exists ookSequence. split; [exact Hc | reflexivity].
Qed.

(** C10 (the code departs from the claim).  Let the control configuration
    be missing when [On] or [Off] is called with a list whose second socket
    index is invalid.  Whatever the call returns, no payload has been
    written: the first socket, although it comes earlier in the list than
    the invalid index, has not been transmitted. *)
Theorem first_socket_not_transmitted :
  forall (w w' : W) (socket bad : N) (rest : list N) (r : option error),
    needs_OOK w = true ->
    (bad < 1 \/ 4 < bad)%N ->
    (On (socket :: bad :: rest) w = (r, w')
     \/ Off (socket :: bad :: rest) w = (r, w')) ->
    filter is_WritePayload (issued w w') = [].
Proof.
  intros w w' socket bad rest r Hn Hbad H.
  assert (Hgen : forall resolve : N -> Command * option error,
             snd (resolve bad) <> None ->
             each_socket resolve (socket :: bad :: rest) w = (r, w') ->
             filter is_WritePayload (issued w w') = []).
  { intros resolve Hb He.
    destruct (resolve socket) as [c [err|]] eqn:Hs.
    - rewrite (each_socket_invalid _ _ _ _ _ _ Hs) in He.
      inversion He; subst. unfold issued. rewrite skipn_all. reflexivity.
    - rewrite (each_socket_valid _ _ _ _ _ Hs) in He.
      destruct (SendControl (cid (this w)) c (repeat (this w)) w)
        as [[e|] w1] eqn:Es.
      + inversion He; subst.
        destruct (SendControl_needs_OOK_no_write _ _ _ _ _ _ Hn Es) as (l & Hc & Hl).
        rewrite (issued_app _ _ _ Hc). exact Hl.
      + destruct (resolve bad) as [c' [err|]] eqn:Hb'; [|cbn in Hb; contradiction].
        rewrite (each_socket_invalid _ _ _ _ _ _ Hb') in He.
        inversion He; subst.
        destruct (SendControl_needs_OOK_no_write _ _ _ _ _ _ Hn Es) as (l & Hc & Hl).
        rewrite (issued_app _ _ _ Hc). exact Hl. }
  assert (Hon : snd (onCommandForSocket bad) <> None
                /\ snd (offCommandForSocket bad) <> None).
  { unfold onCommandForSocket, offCommandForSocket.
    destruct bad as [|[[[]|[]|]|[[]|[]|]|]]; cbn; try (split; discriminate); lia. }
  destruct H as [H|H]; [apply (Hgen onCommandForSocket) | apply (Hgen offCommandForSocket)];
    try apply Hon; exact H.
Qed.

End Properties.

(* ================================================================== *)
(** * The properties on the board *)

Lemma SendControl_mode_change_skips_transmit_witness :
  needs_OOK (board []) = true
  /\ SendControl board_cid OOK_ON_1 8%N (board []) = (None, sent_once)
  /\ filter is_WritePayload (issued (board []) sent_once) = [].
Proof.
  split; [vm_compute; reflexivity|]. split; [vm_compute; reflexivity|].
  pose proof (SendControl_mode_change_skips_transmit
                (board []) sent_once board_cid OOK_ON_1 8%N
                ltac:(unfold board_cid; discriminate) ltac:(discriminate)
                ltac:(vm_compute; reflexivity) ltac:(vm_compute; reflexivity))
    as H.
  exact (proj1 (proj2 (proj2 H))).
Defined.

Lemma mode_transitions_idempotent_witness :
  SendControl board_cid OOK_ON_1 8%N (board []) = (None, sent_once)
  /\ SendControl board_cid OOK_ON_2 8%N sent_once = (None, sent_twice)
  /\ calls (radio sent_twice)
     = calls (radio (board [])) ++ ookSequence ++ issued sent_once sent_twice
  /\ Receive frame_Decode [Read (ReadData [2]); CtxDone]
             MIHOME_MODE_MONITOR (board []) = (Returned None, listened_once)
  /\ forallb is_rx_call (issued listened_once listened_twice) = true.
Proof.
  destruct (mode_transitions_idempotent frame_Decode) as (Hs & Hr & _).
  split; [vm_compute; reflexivity|]. split; [vm_compute; reflexivity|].
  split.
  - pose proof (Hs (board []) sent_once sent_twice
                   board_cid OOK_ON_1 8%N board_cid OOK_ON_2 8%N
                   ltac:(vm_compute; reflexivity) ltac:(vm_compute; reflexivity))
      as H.
    exact (proj2 (proj2 H ltac:(vm_compute; reflexivity))).
  - split; [vm_compute; reflexivity|].
    pose proof (Hr (board []) listened_once listened_twice
                   [Read (ReadData [2]); CtxDone] [Read ReadNil; CtxDone]
                   (Returned None)
                   ltac:(vm_compute; reflexivity) ltac:(vm_compute; reflexivity))
      as H.
    exact (proj1 H).
Defined.

Lemma config_failure_keeps_mode_witness :
  setFSKMode retry_w2 = (Some (ErrTransport 2), retry_w3)
  /\ this retry_w3 = this retry_w2
  /\ setOOKMode (board [None; Some (ErrTransport 3)])
     = (Some (ErrTransport 3), send_failed)
  /\ mode (this (board [None; Some (ErrTransport 3)])) <> MIHOME_MODE_CONTROL
  /\ needs_OOK send_failed = true.
Proof.
  split; [vm_compute; reflexivity|].
  split.
  - pose proof (config_failure_keeps_mode frame_Decode retry_w2 retry_w3
                  (ErrTransport 2)) as H.
    exact (proj1 (proj2 H ltac:(vm_compute; reflexivity))).
  - split; [vm_compute; reflexivity|].
    split; [vm_compute; discriminate|].
    pose proof (config_failure_keeps_mode frame_Decode
                  (board [None; Some (ErrTransport 3)]) send_failed
                  (ErrTransport 3)) as H.
    exact (proj1 (proj2 (proj2 (proj2 (proj1 H ltac:(vm_compute; reflexivity)))))
                 ltac:(vm_compute; discriminate)).
Defined.

(** The session [retry_faults] on the board: the control configuration of
    the [SendControl] fails after it has set the modulation, leaving the
    logical mode at monitor; the monitor configuration of the next [Receive]
    then fails at its third step, [SetSequencer], and returns that error
    with the logical mode unchanged; the [Receive] after that one does not
    configure again: all it issues is the switch to RX, and it succeeds. *)
Lemma config_retry_counterexample :
  Receive frame_Decode [CtxDone] MIHOME_MODE_MONITOR (board retry_faults)
  = (Returned None, retry_w1)
  /\ SendControl board_cid OOK_ON_ALL 8%N retry_w1
     = (Some (ErrTransport 1), retry_w2)
  /\ mode (this retry_w2) = MIHOME_MODE_MONITOR
  /\ Modulation (radio retry_w2) = RFM_MODULATION_OOK
  /\ Receive frame_Decode [CtxDone] MIHOME_MODE_MONITOR retry_w2
     = (Returned (Some (ErrTransport 2)), retry_w3)
  /\ issued retry_w2 retry_w3
     = [SetMode RFM_MODE_STDBY; SetModulation RFM_MODULATION_FSK;
        SetSequencer true]
  /\ mode (this retry_w3) = mode (this retry_w2)
  /\ needs_FSK retry_w3 = false
  /\ Receive frame_Decode [CtxDone] MIHOME_MODE_MONITOR retry_w3
     = (Returned None, retry_w4)
  /\ issued retry_w3 retry_w4 = [SetMode RFM_MODE_RX].
Proof.
  repeat match goal with
         | |- _ /\ _ => split
         end; vm_compute; reflexivity.
Qed.

(** On the board, a frame that the decoder rejects without returning a
    message: the decoder reports a failure, yet the FIFO is never cleared,
    nothing is logged and nothing is published. *)
Lemma undecodable_frame_counterexample :
  frame_Decode [0; 5] = (None, Some (ErrDecode 1))
  /\ fst (Receive frame_Decode undecodable_session MIHOME_MODE_MONITOR (board []))
     = Returned None
  /\ filter (fun c => match c with ClearFIFO => true | _ => false end)
            (calls (radio (snd (Receive frame_Decode undecodable_session
                                        MIHOME_MODE_MONITOR (board []))))) = []
  /\ log (snd (Receive frame_Decode undecodable_session
                       MIHOME_MODE_MONITOR (board []))) = []
  /\ pubsub (snd (Receive frame_Decode undecodable_session
                          MIHOME_MODE_MONITOR (board []))) = [].
Proof.
  repeat match goal with
         | |- _ /\ _ => split
         end; vm_compute; reflexivity.
Qed.

Lemma Receive_cancelled_witness :
  Receive frame_Decode [] MIHOME_MODE_MONITOR (board []) = (Polling, listening)
  /\ Receive frame_Decode [CtxDone; Read (ReadData [2])]
             MIHOME_MODE_MONITOR (board []) = (Returned None, listening)
  /\ published (board []) listening = []
  /\ Receive frame_Decode ([CtxDone; Read (ReadData [2])] ++ [Read (ReadData [3])])
             MIHOME_MODE_MONITOR (board []) = (Returned None, listening).
Proof.
  split; [vm_compute; reflexivity|].
  pose proof (Receive_cancelled frame_Decode (board []) listening
                [Read (ReadData [2])] ltac:(vm_compute; reflexivity)) as H.
  split; [exact (proj1 H)|]. split; [exact (proj1 (proj2 H))|].
  exact (proj2 (proj2 (proj2 H)) [CtxDone; Read (ReadData [2])]
               [Read (ReadData [3])] MIHOME_MODE_MONITOR (board []) listening
               None (proj1 H)).
Defined.

Lemma Receive_read_error_is_fatal_witness :
  Receive frame_Decode [] MIHOME_MODE_MONITOR (board []) = (Polling, listening)
  /\ forallb goes_on [Read (ReadData [2]); Read ReadNil] = true
  /\ exists w1,
      Receive frame_Decode
              ([Read (ReadData [2]); Read ReadNil]
                 ++ Read (ReadErr (ErrTransport 9)) :: [Read (ReadData [3])])
              MIHOME_MODE_MONITOR (board [])
      = (Returned (Some (ErrTransport 9)),
         snd (radio_ReadPayload (ReadErr (ErrTransport 9)) w1)).
Proof.
  split; [vm_compute; reflexivity|]. split; [vm_compute; reflexivity|].
  destruct (Receive_read_error_is_fatal frame_Decode (board []) listening
              [Read (ReadData [2]); Read ReadNil] [Read (ReadData [3])]
              (ErrTransport 9)
              ltac:(vm_compute; reflexivity) ltac:(vm_compute; reflexivity))
    as (w1 & _ & H & _).
  exists w1. exact H.
Defined.

Lemma first_socket_not_transmitted_witness :
  needs_OOK (board []) = true
  /\ (9 < 1 \/ 4 < 9)%N
  /\ On [1%N; 9%N] (board []) = (Some ErrBadParameter, sent_once)
  /\ filter is_WritePayload (issued (board []) sent_once) = [].
Proof.
  split; [vm_compute; reflexivity|]. split; [right; reflexivity|].
  split; [vm_compute; reflexivity|].
  exact (first_socket_not_transmitted (board []) sent_once 1%N 9%N []
           (Some ErrBadParameter)
           ltac:(vm_compute; reflexivity) ltac:(right; reflexivity)
           ltac:(left; vm_compute; reflexivity)).
Defined.

(* ================================================================== *)
(** * Further properties of the codec *)

Lemma app_inj_length {A : Type} (l1 l2 r1 r2 : list A) :
  List.length l1 = List.length l2 ->
  l1 ++ r1 = l2 ++ r2 -> l1 = l2 /\ r1 = r2.
Proof.
  revert l2. induction l1 as [|a l1 IH]; intros [|b l2] Hlen H;
    try discriminate.
  - split; [reflexivity | exact H].
  - cbn [app] in H. inversion H; subst.
    cbn [List.length] in Hlen.
    destruct (IH l2 ltac:(lia) H2) as [-> ->]. split; reflexivity.
Qed.

Lemma is_byte_range (b : Z) : is_byte b = true <-> 0 <= b < 256.
Proof.
  unfold is_byte. rewrite andb_true_iff, Z.leb_le, Z.ltb_lt. reflexivity.
Qed.

Lemma encodePair_alphabet (value : Z) :
  In (fst (encodePair value)) [136; 142; 232; 238].
Proof.
  unfold encodePair, encodeBit.
  destruct (Z.land value 128 =? 0);
    destruct (Z.land (byte_of (Z.shiftl value 1)) 128 =? 0);
    cbn; auto.
Qed.

Lemma encodeLoop_alphabet (n : nat) :
  forall value : Z,
    Forall (fun b => In b [136; 142; 232; 238]) (encodeLoop n value).
Proof.
  induction n as [|n IH]; intros value; cbn [encodeLoop]; [constructor|].
  pose proof (encodePair_alphabet value) as Hp.
  destruct (encodePair value) as [b value']. constructor; [exact Hp | apply IH].
Qed.

Lemma encode_fold_flat_map (l : list Z) :
  forall acc,
    fold_left (fun encoded b => encoded ++ encodeByte b) l acc
    = acc ++ flat_map encodeByte l.
Proof.
  induction l as [|b l IH]; intros acc; cbn [fold_left flat_map].
  - rewrite app_nil_r. reflexivity.
  - rewrite IH, <- app_assoc. reflexivity.
Qed.

Lemma encodeByteArray_flat_map (l : list Z) :
  encodeByteArray (Some l) = Some (flat_map encodeByte l).
Proof.
  cbn [encodeByteArray]. rewrite encode_fold_flat_map. reflexivity.
Qed.

(** The payload of a three-byte address, spelt out. *)
Lemma encodeCommandPayload_explicit (a0 a1 a2 : Z) (cmd : Command) :
  encodeCommandPayload (Some [a0; a1; a2]) cmd
  = Ok (OOK_PREAMBLE ++ skipn 2 (encodeByte a0) ++ encodeByte a1
                     ++ encodeByte a2 ++ skipn 2 (encodeByte (byte_of cmd))).
Proof.
  unfold encodeCommandPayload.
  cbn [len]. rewrite encodeByte_length. cbn [Nat.eqb negb].
  rewrite encodeByteArray_flat_map. cbn [len flat_map].
  rewrite app_nil_r, !length_app, !encodeByte_length.
  cbn [Nat.add Nat.eqb negb slice_from app].
  rewrite skipn_app, encodeByte_length. cbn [Nat.sub skipn].
  rewrite <- !app_assoc. reflexivity.
Qed.

Lemma decodeByte_encodeByte (b : Z) :
  0 <= b < 256 -> decodeByte (encodeByte b) = Some b.
Proof.
  intros Hb.
  assert (Hd : forallb (fun x => match decodeByte (encodeByte x) with
                                 | Some y => y =? x
                                 | None => false
                                 end) all_bytes = true) by (vm_compute; reflexivity).
  pose proof (byte_forall _ Hd b Hb) as H. cbv beta in H.
  destruct (decodeByte (encodeByte b)) as [y|]; [|discriminate].
  apply Z.eqb_eq in H. congruence.
Qed.

(** The last two encoded bytes spell the low four bits, and nothing else
    of the byte. *)
Lemma decodeByte_low_nibble (b : Z) :
  0 <= b < 256 ->
  decodeByte (skipn 2 (encodeByte b)) = Some (b mod 16)
  /\ skipn 2 (encodeByte b) = skipn 2 (encodeByte (b mod 16)).
Proof.
  intros Hb.
  assert (Hd : forallb (fun x => match decodeByte (skipn 2 (encodeByte x)) with
                                 | Some y => y =? x mod 16
                                 | None => false
                                 end) all_bytes = true) by (vm_compute; reflexivity).
  assert (Hs : forallb (fun x => list_Z_eqb (skipn 2 (encodeByte x))
                                            (skipn 2 (encodeByte (x mod 16))))
                       all_bytes = true) by (vm_compute; reflexivity).
  split.
  - pose proof (byte_forall _ Hd b Hb) as H. cbv beta in H.
    destruct (decodeByte (skipn 2 (encodeByte b))) as [y|]; [|discriminate].
    apply Z.eqb_eq in H. congruence.
  - apply list_Z_eqb_eq. exact (byte_forall _ Hs b Hb).
Qed.

(** X1.  Whatever the address and the command, every byte that
    [encodeCommandPayload] puts after the four bytes of the preamble is one
    of [0x88], [0x8E], [0xE8] and [0xEE], and there are twelve of them. *)
Theorem payload_alphabet :
  forall (cid : option (list Z)) (cmd : Command) (payload : list Z),
    encodeCommandPayload cid cmd = Ok payload ->
    exists body,
      payload = OOK_PREAMBLE ++ body
      /\ List.length body = 12%nat
      /\ Forall (fun b => In b [136; 142; 232; 238]) body.
Proof.
  intros cid cmd payload H.
  pose proof (encodeByteArray_len cid) as Hlen.
  unfold encodeCommandPayload in H. cbn [len] in H.
  rewrite encodeByte_length in H. cbn [Nat.eqb negb] in H.
  destruct (Nat.eqb (len (encodeByteArray cid)) 12) eqn:E12;
    cbn [negb] in H; [|discriminate].
  apply Nat.eqb_eq in E12. inversion H; subst; clear H.
  destruct cid as [l|]; [|cbn in E12; discriminate].
  rewrite encodeByteArray_flat_map in *. cbn [len slice_from] in *.
  exists (skipn 2 (flat_map encodeByte l) ++ skipn 2 (encodeByte (byte_of cmd))).
  split; [cbn [app]; rewrite <- ?app_assoc; reflexivity|]. split.
  - rewrite length_app, !length_skipn, E12, encodeByte_length. reflexivity.
  - assert (Hall : Forall (fun b => In b [136; 142; 232; 238])
                          (flat_map encodeByte l)).
    { apply Forall_flat_map. apply Forall_forall. intros x _.
      apply encodeLoop_alphabet. }
    apply Forall_app. split.
    + apply Forall_forall. intros x Hx.
      rewrite Forall_forall in Hall. apply Hall.
      rewrite <- (firstn_skipn 2 (flat_map encodeByte l)).
      apply in_or_app. right. exact Hx.
    + apply Forall_forall. intros x Hx.
      pose proof (encodeLoop_alphabet 4 (byte_of cmd)) as Hc.
      rewrite Forall_forall in Hc. apply Hc.
      rewrite <- (firstn_skipn 2 (encodeLoop 4 (byte_of cmd))).
      apply in_or_app. right. exact Hx.
Qed.

Lemma payload_alphabet_witness :
  encodeCommandPayload board_cid OOK_OFF_3
  = Ok (payload_for board_cid OOK_OFF_3)
  /\ exists body, payload_for board_cid OOK_OFF_3 = OOK_PREAMBLE ++ body
                  /\ List.length body = 12%nat.
Proof.
  split; [vm_compute; reflexivity|].
  destruct (payload_alphabet board_cid OOK_OFF_3
              (payload_for board_cid OOK_OFF_3)
              ltac:(vm_compute; reflexivity)) as (body & H1 & H2 & _).
  exists body. split; assumption.
Defined.

(** X2.  The payload carries the low four bits of the first address byte,
    the other two address bytes and the low four bits of the command, and
    nothing more: replacing the first address byte and the command by their
    low four bits gives the same payload, and two payloads are equal only
    if those twenty address bits and four command bits agree. *)
Theorem payload_carries_24_bits :
  forall (a0 a1 a2 cmd a0' a1' a2' cmd' : Z),
    forallb is_byte [a0; a1; a2; cmd; a0'; a1'; a2'; cmd'] = true ->
    encodeCommandPayload (Some [a0; a1; a2]) cmd
    = encodeCommandPayload (Some [a0 mod 16; a1; a2]) (cmd mod 16)
    /\ (encodeCommandPayload (Some [a0; a1; a2]) cmd
        = encodeCommandPayload (Some [a0'; a1'; a2']) cmd' ->
        a0 mod 16 = a0' mod 16 /\ a1 = a1' /\ a2 = a2'
        /\ cmd mod 16 = cmd' mod 16).
Proof.
  intros a0 a1 a2 cmd a0' a1' a2' cmd' Hb.
  cbn [forallb] in Hb. rewrite !andb_true_iff, !is_byte_range in Hb.
  destruct Hb as (B0 & B1 & B2 & Bc & B0' & B1' & B2' & Bc' & _).
  assert (Hm : forall x, 0 <= x < 256 -> 0 <= x mod 16 < 256).
  { intros x Hx. pose proof (Z.mod_pos_bound x 16 ltac:(lia)). lia. }
  rewrite !encodeCommandPayload_explicit.
  rewrite (byte_of_byte cmd Bc), (byte_of_byte cmd' Bc'),
          (byte_of_byte (cmd mod 16) (Hm cmd Bc)).
  split.
  - rewrite (proj2 (decodeByte_low_nibble a0 B0)).
    rewrite (proj2 (decodeByte_low_nibble cmd Bc)).
    reflexivity.
  - intros H.
    apply (f_equal (fun r => match r with Ok p => p | Err _ => [] end)) in H.
    cbv beta iota in H. apply app_inv_head in H. rename H into H'.
    apply app_inj_length in H'; [|rewrite !length_skipn, !encodeByte_length; reflexivity].
    destruct H' as [H0 H'].
    apply app_inj_length in H'; [|rewrite !encodeByte_length; reflexivity].
    destruct H' as [H1 H'].
    apply app_inj_length in H'; [|rewrite !encodeByte_length; reflexivity].
    destruct H' as [H2 Hc].
    apply (f_equal decodeByte) in H0, H1, H2, Hc.
    rewrite !(proj1 (decodeByte_low_nibble _ B0)),
            !(proj1 (decodeByte_low_nibble _ B0')) in H0.
    rewrite !(proj1 (decodeByte_low_nibble _ Bc)),
            !(proj1 (decodeByte_low_nibble _ Bc')) in Hc.
    rewrite !decodeByte_encodeByte in H1, H2 by assumption.
    repeat split; congruence.
Qed.

Lemma payload_carries_24_bits_witness :
  encodeCommandPayload (Some [246; 198; 198]) 253
  = encodeCommandPayload (Some [6; 198; 198]) 13.
Proof.
  exact (proj1 (payload_carries_24_bits 246 198 198 253 6 198 198 13
                  ltac:(vm_compute; reflexivity))).
Defined.

Lemma decodeByteArray_flat_map (l : list Z) :
  forallb is_byte l = true ->
  decodeByteArray (flat_map encodeByte l) = Some l.
Proof.
  induction l as [|b l IH]; intros Hl; [reflexivity|].
  cbn [forallb] in Hl. apply andb_prop in Hl. destruct Hl as [Hb Hl].
  apply is_byte_range in Hb.
  cbn [flat_map].
  pose proof (encodeByte_length b) as H4.
  pose proof (decodeByte_encodeByte b Hb) as Hd.
  destruct (encodeByte b) as [|x0 [|x1 [|x2 [|x3 [|x4 t]]]]]; try discriminate.
  cbn [app decodeByteArray]. rewrite Hd, (IH Hl). reflexivity.
Qed.

(** X3.  [encodeByteArray] can be undone: an array of bytes is encoded to
    four times as many bytes, from which [decodeByteArray] recovers it; so
    two byte arrays with the same encoding are the same array.  The
    encoding of [nil] is [nil], that of a concatenation the concatenation
    of the encodings. *)
Theorem encodeByteArray_roundtrip :
  forall l l' : list Z,
    forallb is_byte l = true -> forallb is_byte l' = true ->
    (exists encoded,
        encodeByteArray (Some l) = Some encoded
        /\ List.length encoded = (4 * List.length l)%nat
        /\ decodeByteArray encoded = Some l)
    /\ (encodeByteArray (Some l) = encodeByteArray (Some l') -> l = l')
    /\ encodeByteArray (Some (l ++ l'))
       = Some (slice_from 0 (encodeByteArray (Some l))
                 ++ slice_from 0 (encodeByteArray (Some l')))
    /\ encodeByteArray None = None.
Proof.
  intros l l' Hl Hl'. rewrite !encodeByteArray_flat_map. split; [|split; [|split]].
  - exists (flat_map encodeByte l). split; [reflexivity|]. split.
    + pose proof (encodeByteArray_len (Some l)) as H.
      rewrite encodeByteArray_flat_map in H. exact H.
    + exact (decodeByteArray_flat_map l Hl).
  - intros H.
    apply (f_equal (fun r => match r with Some p => p | None => [] end)) in H.
    cbv beta iota in H. rename H into H'.
    apply (f_equal decodeByteArray) in H'.
    rewrite !decodeByteArray_flat_map in H' by assumption. congruence.
  - cbn [slice_from skipn]. rewrite flat_map_app. reflexivity.
  - reflexivity.
Qed.

Lemma encodeByteArray_roundtrip_witness :
  decodeByteArray (slice_from 0 (encodeByteArray board_cid)) = board_cid.
Proof.
  destruct (encodeByteArray_roundtrip [6; 198; 198] []
              ltac:(vm_compute; reflexivity) ltac:(vm_compute; reflexivity))
    as ((encoded & He & _ & Hd) & _).
  unfold board_cid. rewrite He. exact Hd.
Defined.

(* ================================================================== *)
(** * Further properties of addresses, sockets and names *)

Lemma fromHexChar_range (c : ascii) (v : Z) :
  fromHexChar c = Some v -> 0 <= v < 16.
Proof.
  unfold fromHexChar.
  set (n := Z.of_nat (nat_of_ascii c)).
  destruct ((48 <=? n) && (n <=? 57)) eqn:E1.
  { apply andb_prop in E1. destruct E1 as [A B].
    apply Z.leb_le in A, B. intros H; inversion H; lia. }
  destruct ((97 <=? n) && (n <=? 102)) eqn:E2.
  { apply andb_prop in E2. destruct E2 as [A B].
    apply Z.leb_le in A, B. intros H; inversion H; lia. }
  destruct ((65 <=? n) && (n <=? 70)) eqn:E3; [|discriminate].
  apply andb_prop in E3. destruct E3 as [A B].
  apply Z.leb_le in A, B. intros H; inversion H; lia.
Qed.

Lemma hex_byte_range (a b : Z) :
  0 <= a < 16 -> 0 <= b < 16 -> is_byte (Z.lor (Z.shiftl a 4) b) = true.
Proof.
  intros Ha Hb.
  assert (H : forallb (fun x => forallb (fun y => is_byte (Z.lor (Z.shiftl x 4) y))
                                        (map Z.of_nat (seq 0 16)))
                      (map Z.of_nat (seq 0 16)) = true) by (vm_compute; reflexivity).
  assert (Hin : forall x, 0 <= x < 16 -> In x (map Z.of_nat (seq 0 16))).
  { intros x Hx. apply in_map_iff. exists (Z.to_nat x).
    split; [lia | apply in_seq; lia]. }
  rewrite forallb_forall in H. specialize (H a (Hin a Ha)).
  rewrite forallb_forall in H. exact (H b (Hin b Hb)).
Qed.

(** [hex.DecodeString] on a string of even length: one byte per two
    digits, or the first character that is no digit. *)
Lemma hex_DecodeString_even (n : nat) :
  forall s : string,
    String.length s = (2 * n)%nat ->
    match hex_DecodeString s with
    | Ok bytes =>
        List.length bytes = n
        /\ forallb is_byte bytes = true
        /\ forallb is_hex_digit (list_ascii_of_string s) = true
    | Err e =>
        exists c, e = ErrHexInvalidByte c
                  /\ In c (list_ascii_of_string s)
                  /\ is_hex_digit c = false
    end.
Proof.
  induction n as [|n IH]; intros s Hs.
  - destruct s; [|discriminate]. cbn. repeat split.
  - destruct s as [|p [|q rest]]; try (cbn in Hs; lia).
    cbn [String.length] in Hs.
    specialize (IH rest ltac:(lia)).
    cbn [hex_DecodeString list_ascii_of_string forallb].
    unfold is_hex_digit at 1 2.
    destruct (fromHexChar p) as [a|] eqn:Ep.
    2:{ exists p. split; [reflexivity|]. split; [left; reflexivity|].
        unfold is_hex_digit. rewrite Ep. reflexivity. }
    destruct (fromHexChar q) as [b|] eqn:Eq.
    2:{ exists q. split; [reflexivity|]. split; [right; left; reflexivity|].
        unfold is_hex_digit. rewrite Eq. reflexivity. }
    destruct (hex_DecodeString rest) as [bytes|e].
    + destruct IH as (Hl & Hb & Hh). cbn [List.length forallb andb].
      rewrite (hex_byte_range a b (fromHexChar_range _ _ Ep)
                              (fromHexChar_range _ _ Eq)), Hb, Hh.
      repeat split. lia.
    + destruct IH as (c & -> & Hin & Hc). exists c.
      split; [reflexivity|]. split; [right; right; exact Hin | exact Hc].
Qed.

Lemma padLoop_value (value : string) :
  padLoop 2 value
  = Some (if Nat.even (String.length value) then value
          else String "0"%char value).
Proof.
  cbn [padLoop].
  destruct (Nat.even (String.length value)) eqn:Ee.
  - apply Nat.even_spec in Ee. destruct Ee as [k Hk].
    rewrite Hk, Nat.mul_comm, Nat.Div0.mod_mul. reflexivity.
  - assert (Ho : Nat.odd (String.length value) = true)
      by (rewrite <- Nat.negb_even, Ee; reflexivity).
    apply Nat.odd_spec in Ho. destruct Ho as [k Hk].
    assert (H1 : Nat.modulo (String.length value) 2 = 1%nat).
    { rewrite Hk, Nat.add_comm, Nat.mul_comm, Nat.Div0.mod_add. reflexivity. }
    rewrite H1. cbn [Nat.eqb negb String.length].
    assert (H0 : Nat.modulo (S (String.length value)) 2 = 0%nat).
    { replace (S (String.length value)) with ((k + 1) * 2)%nat by lia.
      apply Nat.Div0.mod_mul. }
    rewrite H0. reflexivity.
Qed.

(** X4.  [decodeHexString] accepts exactly the strings made of hexadecimal
    digits, of any length, the empty one included: it returns one byte per
    two digits, rounded up, each in the range of a byte, and a string of odd
    length gives what the same string with a ["0"] in front gives.  When it
    fails, the error names a character of the string that is no hexadecimal
    digit; owing to the padding it never fails for the length. *)
Theorem decodeHexString_digits :
  forall value : string,
    (Nat.odd (String.length value) = true ->
     decodeHexString value = decodeHexString (String "0"%char value))
    /\ match decodeHexString value with
       | Ok bytes =>
           List.length bytes = Nat.div (String.length value + 1) 2
           /\ forallb is_byte bytes = true
           /\ forallb is_hex_digit (list_ascii_of_string value) = true
       | Err e =>
           exists c, e = ErrHexInvalidByte c
                     /\ In c (list_ascii_of_string value)
                     /\ is_hex_digit c = false
       end.
Proof.
  intros value. unfold decodeHexString. rewrite !padLoop_value.
  cbn [String.length]. rewrite Nat.even_succ.
  destruct (Nat.even (String.length value)) eqn:Ee.
  - split.
    + rewrite <- Nat.negb_even, Ee. discriminate.
    + apply Nat.even_spec in Ee. destruct Ee as [k Hk].
      pose proof (hex_DecodeString_even k value Hk) as H.
      destruct (hex_DecodeString value) as [bytes|e]; [|exact H].
      destruct H as (Hl & Hb & Hh). repeat split; try assumption.
      rewrite Hk, Hl. symmetry.
      replace (2 * k + 1)%nat with (1 + k * 2)%nat by lia.
      rewrite Nat.div_add by lia. reflexivity.
  - assert (Ho : Nat.odd (String.length value) = true)
      by (rewrite <- Nat.negb_even, Ee; reflexivity).
    rewrite Ho. split; [reflexivity|].
    apply Nat.odd_spec in Ho. destruct Ho as [k Hk].
    pose proof (hex_DecodeString_even (S k) (String "0"%char value)
                  ltac:(cbn [String.length]; lia)) as H.
    destruct (hex_DecodeString (String "0"%char value)) as [bytes|e].
    + destruct H as (Hl & Hb & Hh). cbn [list_ascii_of_string forallb] in Hh.
      apply andb_prop in Hh. destruct Hh as [_ Hh].
      repeat split; try assumption.
      rewrite Hk, Hl. symmetry.
      replace (2 * k + 1 + 1)%nat with (S k * 2)%nat by lia.
      apply Nat.div_mul. lia.
    + destruct H as (c & -> & Hin & Hc). exists c. split; [reflexivity|].
      split; [|exact Hc].
      cbn [list_ascii_of_string] in Hin. destruct Hin as [<-|Hin]; [|exact Hin].
      vm_compute in Hc. discriminate.
Qed.

Lemma valid_socket_cases (socket : N) :
  valid_socket socket = true ->
  socket = 1%N \/ socket = 2%N \/ socket = 3%N \/ socket = 4%N.
Proof.
  unfold valid_socket. rewrite andb_true_iff, !N.leb_le. lia.
Qed.

Lemma invalid_socket_resolve (socket : N) :
  valid_socket socket = false ->
  onCommandForSocket socket = (OOK_NONE, Some ErrBadParameter)
  /\ offCommandForSocket socket = (OOK_NONE, Some ErrBadParameter).
Proof.
  unfold onCommandForSocket, offCommandForSocket.
  destruct socket as [|[[[]|[]|]|[[]|[]|]|]]; cbn;
    try discriminate; intros _; split; reflexivity.
Qed.

(** X5.  The socket tables answer for the sockets 1 to 4 and for no other
    number; any other number gives [OOK_NONE] with the bad-parameter error
    in both.  For a valid socket the on-command is the off-command plus
    one; two commands of the tables are equal only for the same socket and
    the same table, and none of them is an all-sockets command or
    [OOK_NONE]. *)
Theorem socket_tables :
  forall s t : N,
    (valid_socket s = false ->
     onCommandForSocket s = (OOK_NONE, Some ErrBadParameter)
     /\ offCommandForSocket s = (OOK_NONE, Some ErrBadParameter))
    /\ (valid_socket s = true -> valid_socket t = true ->
        snd (onCommandForSocket s) = None
        /\ snd (offCommandForSocket s) = None
        /\ fst (onCommandForSocket s) = fst (offCommandForSocket s) + 1
        /\ (fst (onCommandForSocket s) = fst (onCommandForSocket t) -> s = t)
        /\ (fst (offCommandForSocket s) = fst (offCommandForSocket t) -> s = t)
        /\ fst (onCommandForSocket s) <> fst (offCommandForSocket t)
        /\ ~ In (fst (onCommandForSocket s)) [OOK_NONE; OOK_ON_ALL; OOK_OFF_ALL]
        /\ ~ In (fst (offCommandForSocket s)) [OOK_NONE; OOK_ON_ALL; OOK_OFF_ALL]).
Proof.
  intros s t. split; [apply invalid_socket_resolve|].
  intros Hs Ht.
  destruct (valid_socket_cases s Hs) as [-> | [-> | [-> | -> ]]];
    destruct (valid_socket_cases t Ht) as [-> | [-> | [-> | -> ]]];
    cbn; repeat split; try reflexivity; try discriminate;
    try (intros [H|[H|[H|H]]]; first [discriminate H | exact H]).
Qed.

Lemma socket_tables_witness :
  valid_socket 7 = false
  /\ onCommandForSocket 7 = (OOK_NONE, Some ErrBadParameter)
  /\ valid_socket 3 = true
  /\ fst (onCommandForSocket 3) = fst (offCommandForSocket 3) + 1.
Proof.
  split; [reflexivity|].
  split; [exact (proj1 (proj1 (socket_tables 7 3) eq_refl))|].
  split; [reflexivity|].
  exact (proj1 (proj2 (proj2 (proj2 (socket_tables 3 3) eq_refl eq_refl)))).
Defined.

(** X6.  [Command.String] has a name for both all-sockets commands and for
    the on-command of every valid socket, but for the off-command of a
    valid socket only when the socket is not 1: [OOK_OFF_1] has no case and
    is printed like an invalid value, as [OOK_NONE] is. *)
Theorem Command_String_names :
  forall s : N,
    valid_socket s = true ->
    Command_String (fst (onCommandForSocket s)) <> "[?? Invalid Command value]"%string
    /\ (Command_String (fst (offCommandForSocket s))
        = "[?? Invalid Command value]"%string <-> s = 1%N)
    /\ Command_String OOK_ON_ALL = "OOK_ON_ALL"%string
    /\ Command_String OOK_OFF_ALL = "OOK_OFF_ALL"%string
    /\ Command_String OOK_NONE = "[?? Invalid Command value]"%string.
Proof.
  intros s Hs.
  destruct (valid_socket_cases s Hs) as [-> | [-> | [-> | -> ]]];
    (split; [vm_compute; discriminate|]);
    (split; [|repeat split]);
    split; vm_compute; intros H; first [reflexivity | discriminate H].
Qed.

Lemma Command_String_names_witness :
  valid_socket 1 = true
  /\ Command_String (fst (offCommandForSocket 1))
     = "[?? Invalid Command value]"%string.
Proof.
  split; [reflexivity|].
  exact (proj2 (proj1 (proj2 (Command_String_names 1 eq_refl))) eq_refl).
Defined.

(** X7.  [Open] fails with the bad-parameter error exactly when one of the
    three interfaces is missing, and otherwise only when the address string
    has a character that is no hexadecimal digit.  A driver it returns is in
    mode NONE, has a repeat count that is not zero (the configured one, or 8
    for 0) and an address that is not [nil]; its RX and TX indicators are
    each one of the two configured LED pins, and are unassigned only when
    neither LED pin is configured. *)
Theorem Open_invariants :
  forall config : MiHome,
    match Open config with
    | Err e =>
        (e = ErrBadParameter
         /\ (GPIO config && Radio_ config && OpenThings config) = false)
        \/ ((GPIO config && Radio_ config && OpenThings config) = true
            /\ exists c, e = ErrHexInvalidByte c
                         /\ In c (list_ascii_of_string (CID config))
                         /\ is_hex_digit c = false)
    | Ok d =>
        (GPIO config && Radio_ config && OpenThings config) = true
        /\ mode d = MIHOME_MODE_NONE
        /\ repeat d <> 0%N
        /\ repeat d = (if (Repeat config =? 0)%N then 8%N else Repeat config)
        /\ (exists a, cid d = Some a
                      /\ decodeHexString (if String.eqb (CID config) EmptyString
                                          then CID_DEFAULT else CID config)
                         = Ok a)
        /\ reset d = PinReset config
        /\ led1 d = PinLED1 config /\ led2 d = PinLED2 config
        /\ (ledrx d = PinLED1 config \/ ledrx d = PinLED2 config)
        /\ (ledtx d = PinLED1 config \/ ledtx d = PinLED2 config)
        /\ (ledrx d = GPIO_PIN_NONE
            <-> PinLED1 config = GPIO_PIN_NONE /\ PinLED2 config = GPIO_PIN_NONE)
        /\ (ledtx d = GPIO_PIN_NONE
            <-> PinLED1 config = GPIO_PIN_NONE /\ PinLED2 config = GPIO_PIN_NONE)
    end.
Proof.
  intros config. unfold Open.
  destruct (GPIO config), (Radio_ config), (OpenThings config);
    cbn [negb orb andb]; try (left; split; reflexivity).
  pose proof (decodeHexString_digits
                (if String.eqb (CID config) EmptyString
                 then CID_DEFAULT else CID config)) as [_ Hd].
  destruct (decodeHexString _) as [a|e] eqn:Ea.
  - split; [reflexivity|]. split; [reflexivity|]. cbn [repeat cid reset led1 led2 ledrx ledtx].
    split; [destruct (Repeat config =? 0)%N eqn:Er;
            [discriminate | apply N.eqb_neq; exact Er]|].
    split; [unfold REPEAT_DEFAULT; reflexivity|].
    split; [exists a; split; reflexivity|].
    split; [reflexivity|]. split; [reflexivity|]. split; [reflexivity|].
    destruct (N.eqb_spec (PinLED2 config) GPIO_PIN_NONE) as [E2|E2];
      destruct (N.eqb_spec (PinLED1 config) GPIO_PIN_NONE) as [E1|E1];
      repeat split; auto; try tauto; try congruence;
      intros; try (exfalso; tauto); try (exfalso; congruence).
  - right. split; [reflexivity|].
    destruct Hd as (c & -> & Hin & Hc). exists c. split; [reflexivity|].
    split; [|exact Hc].
    destruct (String.eqb (CID config) EmptyString) eqn:Ee; [|exact Hin].
    exfalso. clear - Hin Hc. cbn in Hin.
    repeat (destruct Hin as [<-|Hin]; [vm_compute in Hc; discriminate|]).
    exact Hin.
Qed.

(* ================================================================== *)
(** * Further properties of the driver *)

Section Further.

Context {OTMessage : Type}.
Variable Decode : list Z -> option OTMessage * option error.

Local Abbreviation W := (World OTMessage).

Lemma signalled_app (w w' : W) (l : list GPIOCall) :
  gpio w' = gpio w ++ l -> signalled w w' = l.
Proof.
  unfold signalled. intros ->.
  rewrite skipn_app, skipn_all, Nat.sub_diag. reflexivity.
Qed.

(** ** Indicators and reset *)

(** What a [SetLED] call returns and signals, first for a single role. *)
Lemma SetLED_single_outcome (led : LED) (state : GPIOState) (w w' : W)
      (r : option error) :
  led <> LED_ALL ->
  SetLED_single led state w = (r, w') ->
  r = led_error (this w) led
  /\ gpio w' = gpio w ++ match r with
                         | None => led_calls (this w) led state
                         | Some _ => []
                         end.
Proof.
  intros Hl.
  unfold SetLED_single, bind, get_this, gpio_call, ret,
    led_error, led_calls, indicate.
  unfold LED_ALL, LED_1, LED_2, LED_RX, LED_TX in *.
  rewrite (proj2 (N.eqb_neq led 0) Hl).
  destruct (N.eqb_spec led 1) as [->|H1];
    [|destruct (N.eqb_spec led 2) as [->|H2];
      [|destruct (N.eqb_spec led 3) as [->|H3];
        [|destruct (N.eqb_spec led 4) as [->|H4];
          [|assert (H5 : (4 <? led)%N = true) by (apply N.ltb_lt; lia);
            rewrite H5]]]];
    destruct (N.eqb_spec (led1 (this w)) GPIO_PIN_NONE) as [E1|E1];
    destruct (N.eqb_spec (led2 (this w)) GPIO_PIN_NONE) as [E2|E2];
    destruct (N.eqb_spec (ledrx (this w)) GPIO_PIN_NONE) as [E3|E3];
    destruct (N.eqb_spec (ledtx (this w)) GPIO_PIN_NONE) as [E4|E4];
    cbn; intros H; inversion H; subst; cbn;
    rewrite <- ?app_assoc, ?app_nil_r; split; reflexivity.
Qed.

Lemma SetLED_outcome (led : LED) (state : GPIOState) (w w' : W)
      (r : option error) :
  SetLED led state w = (r, w') ->
  only_gpio w w'
  /\ r = led_error (this w) led
  /\ gpio w' = gpio w ++ match r with
                         | None => led_calls (this w) led state
                         | Some _ => []
                         end.
Proof.
  intros H. split; [exact (SetLED_inv _ _ _ _ _ H)|]. revert H.
  unfold SetLED.
  destruct (N.eqb_spec led LED_ALL) as [->|Hl];
    [|apply SetLED_single_outcome; exact Hl].
  assert (Hopt : forall (l : LED) (pin : GPIOPin) (w0 w1 : W) e0,
             (l = LED_1 /\ pin = led1 (this w0))
             \/ (l = LED_2 /\ pin = led2 (this w0)) ->
             (if negb (pin =? GPIO_PIN_NONE)%N
              then SetLED_single l state else ret None) w0 = (e0, w1) ->
             e0 = None /\ this w1 = this w0
             /\ gpio w1 = gpio w0 ++ indicate pin state).
  { intros l pin w0 w1 e0 Hp H0. unfold indicate.
    destruct (N.eqb_spec pin GPIO_PIN_NONE) as [E|E]; cbn [negb] in H0.
    - inversion H0; subst. rewrite app_nil_r. repeat split.
    - pose proof (SetLED_single_inv _ _ _ _ _ H0) as (T & _).
      apply SetLED_single_outcome in H0;
        [|destruct Hp as [[-> _]|[-> _]]; discriminate].
      destruct H0 as (He & Hg).
      assert (Hn : led_error (this w0) l = None).
      { unfold led_error.
        destruct Hp as [[-> ->]|[-> ->]]; unfold LED_1, LED_2;
          cbn [N.eqb Pos.eqb andb];
          rewrite (proj2 (N.eqb_neq _ _) E); reflexivity. }
      rewrite Hn in He. subst e0.
      split; [reflexivity|]. split; [exact T|].
      rewrite Hg. f_equal. unfold led_calls, indicate.
      destruct Hp as [[-> ->]|[-> ->]]; unfold LED_ALL, LED_1, LED_2;
        cbn [N.eqb Pos.eqb];
        rewrite (proj2 (N.eqb_neq _ _) E); reflexivity. }
  unfold guard, bind, get_this. cbv beta iota.
  destruct ((if negb (led1 (this w) =? GPIO_PIN_NONE)%N
             then SetLED_single LED_1 state else ret None) w)
    as [e1 w1] eqn:E1.
  destruct (Hopt _ _ _ _ _ (or_introl (conj eq_refl eq_refl)) E1)
    as (-> & T1 & G1).
  cbv beta iota.
  destruct ((if negb (led2 (this w) =? GPIO_PIN_NONE)%N
             then SetLED_single LED_2 state else ret None) w1)
    as [e2 w2] eqn:E2.
  rewrite <- T1 in E2.
  destruct (Hopt _ _ _ _ _ (or_intror (conj eq_refl eq_refl)) E2)
    as (-> & T2 & G2).
  cbv beta iota. unfold ret. intros H; inversion H; subst.
  split; [reflexivity|].
  rewrite G2, G1, T1, <- app_assoc. reflexivity.
Qed.

(** X8.  [SetLED] touches nothing but GPIO pins.  It fails in two cases
    only, and then signals nothing: for [LED_1] or [LED_2] when that pin is
    not wired (not implemented), and for a role beyond [LED_TX] (bad
    parameter).  [LED_ALL], [LED_RX] and [LED_TX] never fail, whatever is
    wired: [LED_ALL] drives the wired ones of the two pins, and the RX and TX
    roles drive their pin if they have one. *)
Theorem SetLED_roles :
  forall (led : LED) (state : GPIOState) (w w' : W) (r : option error),
    SetLED led state w = (r, w') ->
    only_gpio w w'
    /\ (r = Some ErrNotImplemented
        <-> (led = LED_1 /\ led1 (this w) = GPIO_PIN_NONE)
            \/ (led = LED_2 /\ led2 (this w) = GPIO_PIN_NONE))
    /\ (r = Some ErrBadParameter <-> (4 < led)%N)
    /\ (r = None \/ r = Some ErrNotImplemented \/ r = Some ErrBadParameter)
    /\ (r <> None -> signalled w w' = [])
    /\ (r = None -> signalled w w' = led_calls (this w) led state)
    /\ led_calls (this w) LED_ALL state
       = indicate (led1 (this w)) state ++ indicate (led2 (this w)) state
    /\ led_calls (this w) LED_RX state = indicate (ledrx (this w)) state
    /\ led_calls (this w) LED_TX state = indicate (ledtx (this w)) state
    /\ indicate GPIO_PIN_NONE state = [].
Proof.
  intros led state w w' r H.
  apply SetLED_outcome in H. destruct H as (Hf & Hr & Hg).
  split; [exact Hf|].
  assert (Hsig : signalled w w' = match r with
                                  | None => led_calls (this w) led state
                                  | Some _ => []
                                  end) by exact (signalled_app _ _ _ Hg).
  clear Hg.
  assert (Hcases :
            (r = Some ErrNotImplemented
             <-> (led = LED_1 /\ led1 (this w) = GPIO_PIN_NONE)
                 \/ (led = LED_2 /\ led2 (this w) = GPIO_PIN_NONE))
            /\ (r = Some ErrBadParameter <-> (4 < led)%N)
            /\ (r = None \/ r = Some ErrNotImplemented \/ r = Some ErrBadParameter)).
  { subst r. unfold led_error, LED_1, LED_2.
    destruct (N.eqb_spec led 1) as [->|H1];
      [|destruct (N.eqb_spec led 2) as [->|H2]];
      destruct (N.eqb_spec (led1 (this w)) GPIO_PIN_NONE) as [E1|E1];
      destruct (N.eqb_spec (led2 (this w)) GPIO_PIN_NONE) as [E2|E2];
      cbn [andb];
      try (destruct (N.ltb_spec 4 led) as [H4|H4]);
      try (destruct (N.ltb_spec 4 1) as [H4|H4]; [lia|]);
      try (destruct (N.ltb_spec 4 2) as [H4|H4]; [lia|]);
      intuition (first [discriminate | lia | congruence | auto]). }
  destruct Hcases as (C1 & C2 & C3).
  split; [exact C1|]. split; [exact C2|]. split; [exact C3|].
  split; [intros Hn; destruct r; [exact Hsig | contradiction]|].
  split; [intros ->; exact Hsig|].
  repeat split.
Qed.

(** X9.  [ResetRadio] without a reset pin fails as not implemented and
    does nothing.  With a reset pin it always succeeds: it never touches
    the transceiver, it raises the wired LEDs, pulses the reset pin high
    then low, lowers the LEDs, and leaves the logical mode at NONE, so that
    the next [SendControl] and the next [Receive] both have to apply their
    configuration again. *)
Theorem ResetRadio_forces_reconfiguration :
  forall (w w' : W) (r : option error),
    ResetRadio w = (r, w') ->
    if (reset (this w) =? GPIO_PIN_NONE)%N
    then r = Some ErrNotImplemented /\ w' = w
    else r = None
         /\ this w' = set_mode MIHOME_MODE_NONE (this w)
         /\ radio w' = radio w /\ pubsub w' = pubsub w /\ log w' = log w
         /\ signalled w w'
            = [SetPinMode_OUTPUT (reset (this w))]
                ++ led_calls (this w) LED_ALL GPIO_HIGH
                ++ [WritePin (reset (this w)) GPIO_HIGH;
                    WritePin (reset (this w)) GPIO_LOW]
                ++ led_calls (this w) LED_ALL GPIO_LOW
         /\ needs_OOK w' = true /\ needs_FSK w' = true.
Proof.
  intros w w' r. unfold ResetRadio, bind, get_this, guard. cbv beta iota.
  destruct (reset (this w) =? GPIO_PIN_NONE)%N.
  { intros H; inversion H; subst. split; reflexivity. }
  unfold bind, gpio_call at 1. cbv beta iota.
  set (w1 := mkWorld (this w) (radio w) (gpio w ++ [SetPinMode_OUTPUT (reset (this w))])
                     (pubsub w) (log w) (now w)).
  destruct (SetLED LED_ALL GPIO_HIGH w1) as [r1 w2] eqn:E1.
  apply SetLED_outcome in E1. destruct E1 as ((A1 & A2 & A3 & A4 & A5) & Ar & Ag).
  assert (Hnone : forall d, led_error d LED_ALL = None).
  { intros d. unfold led_error, LED_ALL, LED_1, LED_2. reflexivity. }
  rewrite Hnone in Ar. subst r1. cbv beta iota.
  unfold gpio_call, ret. cbv beta iota. cbn [this radio gpio pubsub log now].
  match goal with
  | |- context [SetLED LED_ALL GPIO_LOW ?x] =>
      destruct (SetLED LED_ALL GPIO_LOW x) as [r3 w4] eqn:E3
  end.
  apply SetLED_outcome in E3. destruct E3 as ((B1 & B2 & B3 & B4 & B5) & Br & Bg).
  rewrite Hnone in Br. subst r3. cbv beta iota.
  unfold put_mode. intros H; inversion H; subst; clear H.
  cbn [this radio gpio pubsub log now] in *.
  subst w1. cbn [this radio gpio pubsub log now] in *.
  split; [reflexivity|]. split; [congruence|].
  split; [congruence|]. split; [congruence|]. split; [congruence|].
  split.
  - apply signalled_app. cbn [gpio]. rewrite Bg. cbn [gpio]. rewrite Ag.
    rewrite A1, <- !app_assoc. reflexivity.
  - unfold needs_OOK, needs_FSK. cbn [this mode set_mode].
    rewrite !orb_true_r. split; reflexivity.
Qed.

(** ** Transmit *)

Lemma nth_fault_pending (r : Radio) :
  pending_fault r = nth_fault 0 (faults r).
Proof. reflexivity. Qed.

Lemma nth_fault_tl (n : nat) (fs : list (option error)) :
  nth_fault n (tl fs) = nth_fault (S n) fs.
Proof.
  unfold nth_fault. destruct fs as [|f fs]; cbn [tl skipn]; [|reflexivity].
  destruct n; reflexivity.
Qed.

Lemma led_TX_calls (d : mihome) (state : GPIOState) :
  led_error d LED_TX = None /\ led_calls d LED_TX state = indicate (ledtx d) state.
Proof. split; reflexivity. Qed.


(** The transmit block, by the outcomes pending for its three calls. *)
Lemma transmit_inv (payload : list Z) (rep : N) (w w' : W) (r : option error) :
  transmit payload rep w = (r, w') ->
  this w' = this w /\ pubsub w' = pubsub w /\ log w' = log w
  /\ Modulation (radio w') = Modulation (radio w)
  /\ match nth_fault 0 (faults (radio w)), nth_fault 1 (faults (radio w)) with
     | Some e, _ =>
         r = Some e
         /\ calls (radio w') = calls (radio w) ++ [SetMode RFM_MODE_TX]
         /\ gpio w' = gpio w
     | None, Some e =>
         r = Some e
         /\ calls (radio w')
            = calls (radio w) ++ [SetMode RFM_MODE_TX; SetSequencer true]
         /\ gpio w' = gpio w
     | None, None =>
         r = nth_fault 2 (faults (radio w))
         /\ calls (radio w')
            = calls (radio w) ++ [SetMode RFM_MODE_TX; SetSequencer true;
                                  WritePayload payload rep]
         /\ gpio w' = gpio w ++ blink (ledtx (this w))
         /\ faults (radio w') = skipn 3 (faults (radio w))
     end.
Proof.
  unfold transmit, guard, bind.
  destruct (call (SetMode RFM_MODE_TX) w) as [r1 w1] eqn:E1.
  apply call_inv in E1.
  destruct E1 as ((A1 & A2 & A3 & A4 & A5) & Ac & Af & Ap & Am).
  rewrite nth_fault_pending in Ap. rewrite <- Ap.
  destruct r1 as [e1|]; cbv beta iota.
  { unfold ret, raise, Raise_error. intros H; inversion H; subst.
    destruct Am as [_ Am]. repeat split; assumption. }
  destruct Am as [_ Am]. cbn [effect Modulation] in Am.
  destruct (call (SetSequencer true) w1) as [r2 w2] eqn:E2.
  apply call_inv in E2.
  destruct E2 as ((B1 & B2 & B3 & B4 & B5) & Bc & Bf & Bp & Bm).
  rewrite nth_fault_pending, Af, nth_fault_tl in Bp. rewrite <- Bp.
  destruct r2 as [e2|]; cbv beta iota.
  { unfold ret, raise, Raise_error. intros H; inversion H; subst.
    destruct Bm as [_ Bm].
    repeat split; try congruence.
    rewrite Bc, Ac, <- app_assoc. reflexivity. }
  destruct Bm as [_ Bm]. cbn [effect Modulation] in Bm.
  destruct (SetLED LED_TX GPIO_HIGH w2) as [x w3] eqn:E3.
  apply SetLED_outcome in E3. destruct E3 as ((C1 & C2 & C3 & C4 & C5) & Cr & Cg).
  rewrite (proj1 (led_TX_calls _ GPIO_HIGH)) in Cr. subst x.
  rewrite (proj2 (led_TX_calls _ GPIO_HIGH)) in Cg.
  destruct (call (WritePayload payload rep) w3) as [r4 w4] eqn:E4.
  apply call_inv in E4.
  destruct E4 as ((D1 & D2 & D3 & D4 & D5) & Dc & Df & Dp & Dm).
  assert (Dd : Modulation (radio w4) = Modulation (radio w3))
    by (destruct r4; destruct Dm as [_ Dm]; exact Dm).
  destruct (SetLED LED_TX GPIO_LOW w4) as [y w5] eqn:E5.
  apply SetLED_outcome in E5. destruct E5 as ((G1 & G2 & G3 & G4 & G5) & Gr & Gg).
  rewrite (proj1 (led_TX_calls _ GPIO_LOW)) in Gr. subst y.
  rewrite (proj2 (led_TX_calls _ GPIO_LOW)) in Gg.
  unfold ret. intros H. injection H as Hr Hw. rewrite <- Hr, <- Hw. clear Hr Hw.
  split; [congruence|]. split; [congruence|]. split; [congruence|].
  split; [congruence|].
  split.
  - rewrite Dp, nth_fault_pending, C2, Bf, Af, !nth_fault_tl. reflexivity.
  - split; [rewrite G2, Dc, C2, Bc, Ac, <- !app_assoc; reflexivity|].
    split.
    + rewrite Gg, D2, Cg, B2, A2, D1, C1, B1, A1. unfold blink.
      rewrite <- app_assoc. reflexivity.
    + rewrite G2, Df, C2, Bf, Af.
      destruct (faults (radio w)) as [|f0 [|f1 [|f2 fs]]]; reflexivity.
Qed.


(** A [SendControl] that cannot even build its payload. *)
Lemma SendControl_rejects (cid : option (list Z)) (cmd : Command) (rep : N)
      (w : W) :
  rep = 0%N \/ len cid <> 3%nat ->
  SendControl cid cmd rep w
  = (Some (if (rep =? 0)%N || match cid with None => true | Some _ => false end
           then ErrBadParameter else ErrAppError), w).
Proof.
  intros Hbad. unfold SendControl.
  destruct ((rep =? 0)%N || match cid with None => true | Some _ => false end)
    eqn:E; [reflexivity|].
  apply orb_false_elim in E. destruct E as [Er _].
  apply N.eqb_neq in Er. destruct Hbad as [Hr|Hl]; [contradiction|].
  unfold encodeCommandPayload. cbn [len]. rewrite encodeByte_length.
  cbn [Nat.eqb negb]. rewrite encodeByteArray_len.
  destruct (Nat.eqb_spec (4 * len cid) 12) as [E|E]; [lia|]. reflexivity.
Qed.

(** X11.  [Open] does not check how long the address is, but sending does:
    when the driver's repeat count is zero or its address is not exactly
    three bytes long, every [SendControl] with them, every [On] and every
    [Off], with any list of sockets, fails with the bad-parameter or the
    internal error and leaves everything as it was: the transceiver is
    never called. *)
Theorem unusable_address_never_sends :
  forall (w : W) (sockets : list N) (cmd : Command),
    repeat (this w) = 0%N \/ len (cid (this w)) <> 3%nat ->
    exists e1 e2 e3,
      SendControl (cid (this w)) cmd (repeat (this w)) w = (Some e1, w)
      /\ On sockets w = (Some e2, w)
      /\ Off sockets w = (Some e3, w)
      /\ Forall (fun e => e = ErrBadParameter \/ e = ErrAppError) [e1; e2; e3].
Proof.
  intros w sockets cmd Hbad.
  set (e := if (repeat (this w) =? 0)%N
               || match cid (this w) with None => true | Some _ => false end
            then ErrBadParameter else ErrAppError).
  assert (He : e = ErrBadParameter \/ e = ErrAppError)
    by (subst e; destruct (_ || _); auto).
  assert (Hs : forall c, SendControl (cid (this w)) c (repeat (this w)) w
                         = (Some e, w))
    by (intros c; exact (SendControl_rejects _ c _ w Hbad)).
  assert (Heach : forall resolve,
             (forall s, resolve s = (fst (resolve s), None)
                        \/ resolve s = (OOK_NONE, Some ErrBadParameter)) ->
             forall l, l <> [] ->
             exists e', each_socket resolve l w = (Some e', w)
                        /\ (e' = ErrBadParameter \/ e' = ErrAppError)).
  { intros resolve Hres [|s l] Hl; [contradiction|].
    destruct (Hres s) as [Hv|Hi].
    - rewrite (each_socket_valid _ _ _ _ _ Hv), Hs. exists e. split; [reflexivity | exact He].
    - rewrite (each_socket_invalid _ _ _ _ _ _ Hi). exists ErrBadParameter.
      split; [reflexivity | left; reflexivity]. }
  assert (Hon : forall s, onCommandForSocket s = (fst (onCommandForSocket s), None)
                          \/ onCommandForSocket s = (OOK_NONE, Some ErrBadParameter)).
  { intros s. destruct (valid_socket s) eqn:Ev.
    - left. destruct (valid_socket_cases s Ev) as [-> | [-> | [-> | -> ]]]; reflexivity.
    - right. exact (proj1 (invalid_socket_resolve s Ev)). }
  assert (Hoff : forall s, offCommandForSocket s = (fst (offCommandForSocket s), None)
                           \/ offCommandForSocket s = (OOK_NONE, Some ErrBadParameter)).
  { intros s. destruct (valid_socket s) eqn:Ev.
    - left. destruct (valid_socket_cases s Ev) as [-> | [-> | [-> | -> ]]]; reflexivity.
    - right. exact (proj2 (invalid_socket_resolve s Ev)). }
  assert (HOn : exists e', On sockets w = (Some e', w)
                           /\ (e' = ErrBadParameter \/ e' = ErrAppError)).
  { unfold On. destruct sockets as [|s l]; cbn [List.length Nat.eqb].
    - unfold bind, get_this. cbv beta iota. rewrite Hs. exists e. split; [reflexivity | exact He].
    - apply Heach; [exact Hon | discriminate]. }
  assert (HOff : exists e', Off sockets w = (Some e', w)
                            /\ (e' = ErrBadParameter \/ e' = ErrAppError)).
  { unfold Off. destruct sockets as [|s l]; cbn [List.length Nat.eqb].
    - unfold bind, get_this. cbv beta iota. rewrite Hs. exists e. split; [reflexivity | exact He].
    - apply Heach; [exact Hoff | discriminate]. }
  destruct HOn as (e2 & H2 & He2). destruct HOff as (e3 & H3 & He3).
  exists e, e2, e3. split; [apply Hs|]. split; [exact H2|]. split; [exact H3|].
  constructor; [exact He|]. constructor; [exact He2|].
  constructor; [exact He3 | constructor].
Qed.

(** ** What sending and receiving never do *)

Lemma prefix_forallb {A : Type} (P : A -> bool) (l done rest : list A) (c : A) :
  forallb P l = true -> l = done ++ c :: rest ->
  forallb P (done ++ [c]) = true.
Proof.
  intros H ->. rewrite forallb_app in *. cbn [forallb] in *.
  apply andb_prop in H. destruct H as [Hd Hc].
  apply andb_prop in Hc. destruct Hc as [Hc _].
  rewrite Hd, Hc. reflexivity.
Qed.

Lemma rx_calls_are_monitor_calls (l : list RadioCall) :
  forallb is_rx_call l = true -> forallb is_monitor_call l = true.
Proof.
  rewrite !forallb_forall. intros H c Hc. specialize (H c Hc).
  destruct c; try discriminate; try reflexivity.
  destruct m; try discriminate; reflexivity.
Qed.

Lemma run_calls_alphabet (P : RadioCall -> bool) (cs : list RadioCall)
      (w w' : W) (r : option error) :
  forallb P cs = true ->
  run_calls cs w = (r, w') ->
  only_radio w w'
  /\ exists l, calls (radio w') = calls (radio w) ++ l /\ forallb P l = true.
Proof.
  intros HP H. apply run_calls_inv in H. destruct H as (Hf & H).
  split; [exact Hf|]. destruct r as [e|].
  - destruct H as (done & c & rest & Hs & Hc & _).
    exists (done ++ [c]). split; [exact Hc|].
    exact (prefix_forallb P cs done rest c HP Hs).
  - destruct H as (Hc & _). exists cs. split; assumption.
Qed.

Lemma arm_receive_inv (w w' : W) (r : option error) :
  arm_receive w = (r, w') ->
  only_radio w w'
  /\ exists c, calls (radio w') = calls (radio w) ++ [c] /\ is_rx_call c = true.
Proof.
  unfold arm_receive, bind, radio_Mode. cbv beta iota.
  destruct (negb (RFMMode_beq (Mode (radio w)) RFM_MODE_RX)); intros H;
    apply call_inv in H; destruct H as (Hf & Hc & _);
    (split; [exact Hf|]); eexists; (split; [exact Hc | reflexivity]).
Qed.

(** The mode set-up of [Receive], whatever comes of it: it signals and
    publishes nothing, keeps the indicator roles, and issues receiving
    calls only. *)
Lemma Receive_setup_frame (w wp : W) (r : outcome) :
  Receive Decode [] MIHOME_MODE_MONITOR w = (r, wp) ->
  gpio wp = gpio w /\ pubsub wp = pubsub w /\ log wp = log w
  /\ ledrx (this wp) = ledrx (this w)
  /\ exists l, calls (radio wp) = calls (radio w) ++ l
               /\ forallb is_monitor_call l = true.
Proof.
  assert (Harm : forall (w1 w2 : W) (r1 : outcome),
             guard arm_receive (receive_loop Decode []) w1 = (r1, w2) ->
             only_radio w1 w2
             /\ exists l, calls (radio w2) = calls (radio w1) ++ l
                          /\ forallb is_monitor_call l = true).
  { intros w1 w2 r1 H. unfold guard, bind in H.
    destruct (arm_receive w1) as [[e|] wa] eqn:Ea; cbv beta iota in H;
      cbn [receive_loop] in H; unfold ret in H; inversion H; subst;
      apply arm_receive_inv in Ea; destruct Ea as (Hf & c & Hc & Hrx);
      (split; [exact Hf|]); exists [c]; (split; [exact Hc|]);
      apply rx_calls_are_monitor_calls; cbn; rewrite Hrx; reflexivity. }
  destruct (needs_FSK w) eqn:En.
  - rewrite (Receive_configures _ _ _ En). unfold guard at 1. unfold bind at 1.
    unfold reconfigure_monitor at 1. unfold guard at 1. unfold bind at 1.
    rewrite setFSKMode_run.
    destruct (run_calls fskSequence w) as [[e|] w1] eqn:Er; cbv beta iota.
    + apply (run_calls_alphabet is_monitor_call) in Er; [|reflexivity].
      destruct Er as ((F1 & F2 & F3 & F4 & F5) & l & Hc & Hl).
      unfold ret. cbv beta iota. intros H; inversion H; subst.
      repeat split; try congruence. exists l. split; assumption.
    + apply (run_calls_alphabet is_monitor_call) in Er; [|reflexivity].
      destruct Er as ((F1 & F2 & F3 & F4 & F5) & l & Hc & Hl).
      unfold bind at 1.
      destruct (put_mode MIHOME_MODE_MONITOR w1) as [u w2] eqn:Ep.
      apply put_mode_inv in Ep. destruct Ep as (P1 & P2 & P3 & P4 & P5 & P6).
      unfold ret at 1. cbv beta iota. intros H.
      apply Harm in H. destruct H as ((G1 & G2 & G3 & G4 & G5) & l' & Hc' & Hl').
      split; [congruence|]. split; [congruence|]. split; [congruence|].
      split; [rewrite G1, P1, F1; reflexivity|].
      exists (l ++ l'). split.
      * rewrite Hc', P2, Hc, <- app_assoc. reflexivity.
      * rewrite forallb_app, Hl, Hl'. reflexivity.
  - rewrite (Receive_configured _ _ _ En). intros H.
    apply Harm in H. destruct H as ((G1 & G2 & G3 & G4 & G5) & l' & Hc' & Hl').
    repeat split; try congruence. exists l'. split; assumption.
Qed.

Lemma Receive_calls (ctx : list poll) (m : MiHomeMode) (w w' : W) (r : outcome) :
  Receive Decode ctx m w = (r, w') ->
  exists l, calls (radio w') = calls (radio w) ++ l
            /\ forallb is_monitor_call l = true.
Proof.
  destruct (MiHomeMode_eq_dec m MIHOME_MODE_MONITOR) as [->|Hm].
  - rewrite Receive_split.
    destruct (Receive Decode [] MIHOME_MODE_MONITOR w) as [r0 wp] eqn:E0.
    apply Receive_setup_frame in E0. destruct E0 as (_ & _ & _ & _ & l & Hc & Hl).
    destruct r0 as [e|].
    + intros H; inversion H; subst. exists l. split; assumption.
    + intros H. apply receive_loop_inv in H.
      destruct H as (_ & _ & _ & l' & Hc' & Hl').
      exists (l ++ l'). split.
      * rewrite Hc', Hc, <- app_assoc. reflexivity.
      * rewrite forallb_app, Hl, (rx_calls_are_monitor_calls _ Hl'). reflexivity.
  - rewrite (Receive_other_mode _ _ _ _ Hm). intros H; inversion H; subst.
    exists []. rewrite app_nil_r. split; reflexivity.
Qed.

Lemma encodeCommandPayload_ok (cid : option (list Z)) (cmd : Command) :
  len cid = 3%nat ->
  encodeCommandPayload cid cmd = Ok (payload_for cid cmd).
Proof.
  intros H3. unfold payload_for.
  destruct cid as [[|a0 [|a1 [|a2 [|a3 l]]]]|]; try discriminate.
  rewrite encodeCommandPayload_explicit. reflexivity.
Qed.

Lemma SendControl_calls (cid : option (list Z)) (cmd : Command) (rep : N)
      (w w' : W) (r : option error) :
  SendControl cid cmd rep w = (r, w') ->
  exists l, calls (radio w') = calls (radio w) ++ l
            /\ forallb is_control_call l = true.
Proof.
  destruct (N.eq_dec rep 0) as [Hr|Hr];
    [|destruct (Nat.eq_dec (len cid) 3) as [H3|H3]].
  - rewrite (SendControl_rejects _ _ _ _ (or_introl Hr)).
    intros H; inversion H; subst. exists []. rewrite app_nil_r. split; reflexivity.
  - pose proof (encodeCommandPayload_ok cid cmd H3) as Hp.
    destruct (needs_OOK w) eqn:En.
    + rewrite (SendControl_configures _ _ _ _ _ Hr Hp En).
      unfold reconfigure_control, guard, bind. rewrite setOOKMode_run.
      destruct (run_calls ookSequence w) as [[e|] w1] eqn:Er; cbv beta iota;
        (apply (run_calls_alphabet is_control_call) in Er; [|reflexivity]);
        destruct Er as (_ & l & Hc & Hl);
        unfold put_mode, ret; intros H; inversion H; subst;
        exists l; (split; [exact Hc | exact Hl]).
    + rewrite (SendControl_transmits _ _ _ _ _ Hr Hp En). intros H.
      apply transmit_inv in H. destruct H as (_ & _ & _ & _ & H).
      destruct (nth_fault 0 (faults (radio w)));
        [|destruct (nth_fault 1 (faults (radio w)))];
        destruct H as (_ & Hc & _); eexists; (split; [exact Hc | reflexivity]).
  - rewrite (SendControl_rejects _ _ _ _ (or_intror H3)).
    intros H; inversion H; subst. exists []. rewrite app_nil_r. split; reflexivity.
Qed.

Lemma each_socket_calls (resolve : N -> Command * option error)
      (sockets : list N) :
  forall (w w' : W) (r : option error),
    each_socket resolve sockets w = (r, w') ->
    exists l, calls (radio w') = calls (radio w) ++ l
              /\ forallb is_control_call l = true.
Proof.
  induction sockets as [|s rest IH]; intros w w' r H.
  - inversion H; subst. exists []. rewrite app_nil_r. split; reflexivity.
  - destruct (resolve s) as [c [err|]] eqn:Hs.
    + rewrite (each_socket_invalid _ _ _ _ _ _ Hs) in H. inversion H; subst.
      exists []. rewrite app_nil_r. split; reflexivity.
    + rewrite (each_socket_valid _ _ _ _ _ Hs) in H.
      destruct (SendControl (cid (this w)) c (repeat (this w)) w)
        as [[e|] w1] eqn:Es;
        apply SendControl_calls in Es; destruct Es as (l & Hc & Hl).
      * inversion H; subst. exists l. split; assumption.
      * apply IH in H. destruct H as (l' & Hc' & Hl').
        exists (l ++ l'). split.
        -- rewrite Hc', Hc, <- app_assoc. reflexivity.
        -- rewrite forallb_app, Hl, Hl'. reflexivity.
Qed.

(** X12.  Whatever they return, [SendControl], [On] and [Off] never read a
    payload, never clear the FIFO, never switch the transceiver to RX and
    never select FSK; and [Receive] never writes a payload, never switches
    the transceiver to TX and never selects OOK. *)
Theorem sending_and_receiving_stay_apart :
  (forall cid cmd rep (w w' : W) r,
      SendControl cid cmd rep w = (r, w') ->
      forallb is_control_call (issued w w') = true)
  /\ (forall sockets (w w' : W) r,
         On sockets w = (r, w') \/ Off sockets w = (r, w') ->
         forallb is_control_call (issued w w') = true)
  /\ (forall ctx m (w w' : W) r,
         Receive Decode ctx m w = (r, w') ->
         forallb is_monitor_call (issued w w') = true)
  /\ (forall c, is_control_call c = false <->
                c = ReadPayload \/ c = ClearFIFO \/ c = SetMode RFM_MODE_RX
                \/ c = SetModulation RFM_MODULATION_FSK)
  /\ (forall c, is_monitor_call c = false <->
                (exists p n, c = WritePayload p n) \/ c = SetMode RFM_MODE_TX
                \/ c = SetModulation RFM_MODULATION_OOK).
Proof.
  split; [|split; [|split; [|split]]].
  - intros cid cmd rep w w' r H. apply SendControl_calls in H.
    destruct H as (l & Hc & Hl). rewrite (issued_app _ _ _ Hc). exact Hl.
  - intros sockets w w' r H.
    assert (Hex : exists l, calls (radio w') = calls (radio w) ++ l
                            /\ forallb is_control_call l = true).
    { unfold On, Off in H.
      destruct sockets as [|s rest]; cbn [List.length Nat.eqb] in H.
      - unfold bind, get_this in H. cbv beta iota in H.
        destruct H as [H|H]; exact (SendControl_calls _ _ _ _ _ _ H).
      - destruct H as [H|H]; exact (each_socket_calls _ _ _ _ _ H). }
    destruct Hex as (l & Hc & Hl). rewrite (issued_app _ _ _ Hc). exact Hl.
  - intros ctx m w w' r H. apply Receive_calls in H.
    destruct H as (l & Hc & Hl). rewrite (issued_app _ _ _ Hc). exact Hl.
  - intros c. split.
    + destruct c; try discriminate; cbn; auto.
      * destruct m; try discriminate; auto.
      * destruct m; try discriminate; auto.
    + intros [->|[->|[->| ->]]]; reflexivity.
  - intros c. split.
    + destruct c; try discriminate; cbn; eauto.
      * destruct m; try discriminate; auto.
      * destruct m; try discriminate; auto.
    + intros [(p & n & ->)|[->| ->]]; reflexivity.
Qed.

(** ** What a receive session signals and publishes *)




(** ** Multi-socket switching when every call succeeds *)

Lemma call_quiet (c : RadioCall) (w : W) :
  faults (radio w) = [] ->
  exists w', call c w = (None, w') /\ faults (radio w') = [].
Proof.
  intros Hf. destruct (call c w) as [e w'] eqn:E. exists w'.
  apply call_inv in E. destruct E as (_ & _ & Hfs & He & _).
  unfold pending_fault in He. rewrite Hf in He, Hfs. subst e.
  split; [reflexivity | exact Hfs].
Qed.

Lemma run_calls_quiet (cs : list RadioCall) :
  forall w : W,
    faults (radio w) = [] ->
    exists w', run_calls cs w = (None, w') /\ faults (radio w') = [].
Proof.
  induction cs as [|c cs IH]; intros w Hf.
  - exists w. split; [reflexivity | exact Hf].
  - cbn [run_calls]. unfold guard, bind.
    destruct (call_quiet c w Hf) as (w1 & -> & Hf1). cbv beta iota.
    exact (IH w1 Hf1).
Qed.

Lemma written_app (l1 l2 : list RadioCall) :
  written (l1 ++ l2) = written l1 ++ written l2.
Proof. unfold written. apply flat_map_app. Qed.

(** One [SendControl] of a usable driver on a transceiver that does not
    fail: it succeeds, and writes its payload unless it had to configure. *)
Lemma SendControl_quiet (cmd : Command) (w : W) :
  faults (radio w) = [] ->
  repeat (this w) <> 0%N -> len (cid (this w)) = 3%nat ->
  exists (w' : W) (l : list RadioCall),
    SendControl (cid (this w)) cmd (repeat (this w)) w = (None, w')
    /\ faults (radio w') = []
    /\ needs_OOK w' = false
    /\ cid (this w') = cid (this w) /\ repeat (this w') = repeat (this w)
    /\ calls (radio w') = calls (radio w) ++ l
    /\ written l = if needs_OOK w then []
                   else [(payload_for (cid (this w)) cmd, repeat (this w))].
Proof.
  intros Hf Hr H3.
  pose proof (encodeCommandPayload_ok (cid (this w)) cmd H3) as Hp.
  destruct (needs_OOK w) eqn:En.
  - rewrite (SendControl_configures _ _ _ _ _ Hr Hp En).
    unfold reconfigure_control, guard, bind. rewrite setOOKMode_run.
    destruct (run_calls_quiet ookSequence w Hf) as (w1 & Hrun & Hf1).
    rewrite Hrun. cbv beta iota. unfold put_mode, ret.
    apply run_calls_inv in Hrun.
    destruct Hrun as ((F1 & _) & Hc & _ & Hd).
    eexists. exists ookSequence. split; [reflexivity|].
    cbn [this radio]. split; [exact Hf1|].
    split; [unfold needs_OOK; cbn [this radio]; rewrite Hd; reflexivity|].
    rewrite F1. repeat split. exact Hc.
  - destruct (SendControl (cid (this w)) cmd (repeat (this w)) w) as [r w'] eqn:E.
    rewrite (SendControl_transmits _ _ _ _ _ Hr Hp En) in E.
    apply transmit_inv in E. destruct E as (T & _ & _ & M & H).
    rewrite Hf in H. cbn in H. destruct H as (-> & Hc & _ & Hfs).
    exists w', [SetMode RFM_MODE_TX; SetSequencer true;
                WritePayload (payload_for (cid (this w)) cmd) (repeat (this w))].
    split; [reflexivity|]. split; [exact Hfs|].
    split; [unfold needs_OOK in *; rewrite M, T; exact En|].
    rewrite T. repeat split. exact Hc.
Qed.

Lemma each_socket_quiet (resolve : N -> Command * option error)
      (sockets : list N) :
  (forall s, In s sockets -> snd (resolve s) = None) ->
  forall w : W,
    faults (radio w) = [] ->
    repeat (this w) <> 0%N -> len (cid (this w)) = 3%nat ->
    exists (w' : W) (l : list RadioCall),
      each_socket resolve sockets w = (None, w')
      /\ calls (radio w') = calls (radio w) ++ l
      /\ written l
         = map (fun s => (payload_for (cid (this w)) (fst (resolve s)),
                          repeat (this w)))
               (if needs_OOK w then tl sockets else sockets).
Proof.
  induction sockets as [|s rest IH]; intros Hres w Hf Hr H3.
  - exists w, []. rewrite app_nil_r.
    split; [reflexivity|]. split; [reflexivity|].
    destruct (needs_OOK w); reflexivity.
  - assert (Hs : resolve s = (fst (resolve s), None)).
    { specialize (Hres s (or_introl eq_refl)).
      destruct (resolve s) as [c e]. cbn in *. subst e. reflexivity. }
    rewrite (each_socket_valid _ _ _ _ _ Hs).
    destruct (SendControl_quiet (fst (resolve s)) w Hf Hr H3)
      as (w1 & l1 & -> & Hf1 & Hn1 & Hc1 & Hr1 & Hcalls1 & Hw1).
    destruct (IH (fun x Hx => Hres x (or_intror Hx)) w1 Hf1
                 ltac:(rewrite Hr1; exact Hr) ltac:(rewrite Hc1; exact H3))
      as (w' & l & He & Hcalls & Hw).
    exists w', (l1 ++ l). split; [exact He|].
    split; [rewrite Hcalls, Hcalls1, <- app_assoc; reflexivity|].
    rewrite written_app, Hw, Hw1, Hn1, Hc1, Hr1.
    destruct (needs_OOK w); reflexivity.
Qed.

(** X14.  On a usable driver (repeat count not zero, address of three
    bytes) and a transceiver none of whose calls fails, [On] and [Off] with
    valid sockets succeed, and the payloads they write are those of their
    commands, in the order of the list, each with the driver's repeat
    count: one command per socket, or the single all-sockets command for
    the empty list.  But when the control configuration was not in place at
    the call, the first of these commands is missing: its [SendControl] was
    spent on configuring. *)
Theorem On_Off_write_in_order :
  forall (sockets : list N) (w : W),
    faults (radio w) = [] ->
    repeat (this w) <> 0%N -> len (cid (this w)) = 3%nat ->
    forallb valid_socket sockets = true ->
    exists w_on w_off : W,
      On sockets w = (None, w_on)
      /\ Off sockets w = (None, w_off)
      /\ written (issued w w_on)
         = map (fun c => (payload_for (cid (this w)) c, repeat (this w)))
               (if needs_OOK w
                then tl (commands_of OOK_ON_ALL onCommandForSocket sockets)
                else commands_of OOK_ON_ALL onCommandForSocket sockets)
      /\ written (issued w w_off)
         = map (fun c => (payload_for (cid (this w)) c, repeat (this w)))
               (if needs_OOK w
                then tl (commands_of OOK_OFF_ALL offCommandForSocket sockets)
                else commands_of OOK_OFF_ALL offCommandForSocket sockets).
Proof.
  intros sockets w Hf Hr H3 Hv.
  assert (Hgen : forall (all : Command) (resolve : N -> Command * option error),
             (forall s, valid_socket s = true -> snd (resolve s) = None) ->
             exists w' : W,
               (if (List.length sockets =? 0)%nat
                then bind get_this
                          (fun d => SendControl (cid d) all (repeat d))
                else each_socket resolve sockets) w = (None, w')
               /\ written (issued w w')
                  = map (fun c => (payload_for (cid (this w)) c, repeat (this w)))
                        (if needs_OOK w
                         then tl (commands_of all resolve sockets)
                         else commands_of all resolve sockets)).
  { intros all resolve Hres. destruct sockets as [|s rest].
    - cbn [List.length Nat.eqb commands_of]. unfold bind, get_this. cbv beta iota.
      destruct (SendControl_quiet all w Hf Hr H3)
        as (w' & l & He & _ & _ & _ & _ & Hc & Hw).
      exists w'. split; [exact He|].
      rewrite (issued_app _ _ _ Hc), Hw. destruct (needs_OOK w); reflexivity.
    - cbn [List.length Nat.eqb commands_of].
      destruct (each_socket_quiet resolve (s :: rest)
                  ltac:(intros x Hx; apply Hres;
                        rewrite forallb_forall in Hv; exact (Hv x Hx))
                  w Hf Hr H3) as (w' & l & He & Hc & Hw).
      exists w'. split; [exact He|].
      rewrite (issued_app _ _ _ Hc), Hw.
      destruct (needs_OOK w); cbn [tl map]; rewrite ?map_map; reflexivity. }
  destruct (Hgen OOK_ON_ALL onCommandForSocket) as (w_on & Hon & Hwon).
  { intros s Hs.
    destruct (valid_socket_cases s Hs) as [-> | [-> | [-> | -> ]]]; reflexivity. }
  destruct (Hgen OOK_OFF_ALL offCommandForSocket) as (w_off & Hoff & Hwoff).
  { intros s Hs.
    destruct (valid_socket_cases s Hs) as [-> | [-> | [-> | -> ]]]; reflexivity. }
  exists w_on, w_off. repeat split; assumption.
Qed.

(** ** Temperature *)


End Further.

(* ================================================================== *)
(** * The further properties on the board *)

Lemma decodeHexString_digits_witness :
  Nat.odd (String.length "ABC") = true
  /\ decodeHexString "ABC" = decodeHexString "0ABC".
Proof.
  split; [reflexivity|].
  exact (proj1 (decodeHexString_digits "ABC") eq_refl).
Defined.

Lemma SetLED_roles_witness :
  SetLED LED_ALL GPIO_HIGH (board [])
  = (None, snd (SetLED LED_ALL GPIO_HIGH (board [])))
  /\ signalled (board []) (snd (SetLED LED_ALL GPIO_HIGH (board [])))
     = led_calls board_driver LED_ALL GPIO_HIGH.
Proof.
  split; [vm_compute; reflexivity|].
  pose proof (SetLED_roles (OTMessage := list Z) LED_ALL GPIO_HIGH (board [])
                (snd (SetLED LED_ALL GPIO_HIGH (board []))) None
                ltac:(vm_compute; reflexivity)) as H.
  exact (proj1 (proj2 (proj2 (proj2 (proj2 (proj2 H))))) eq_refl).
Defined.

Lemma ResetRadio_forces_reconfiguration_witness :
  ResetRadio sent_once = (None, reset_board)
  /\ needs_OOK sent_once = false
  /\ needs_OOK reset_board = true.
Proof.
  split; [vm_compute; reflexivity|]. split; [vm_compute; reflexivity|].
  pose proof (ResetRadio_forces_reconfiguration sent_once reset_board None
                ltac:(vm_compute; reflexivity)) as H.
  change ((reset (this sent_once) =? GPIO_PIN_NONE)%N) with false in H.
  exact (proj1 (proj2 (proj2 (proj2 (proj2 (proj2 (proj2 H))))))).
Defined.


Lemma unusable_address_never_sends_witness :
  Open short_cid_config = Ok (this short_cid_board)
  /\ len (cid (this short_cid_board)) <> 3%nat
  /\ exists e, On [2%N] short_cid_board = (Some e, short_cid_board).
Proof.
  split; [vm_compute; reflexivity|].
  split; [vm_compute; discriminate|].
  destruct (unusable_address_never_sends short_cid_board [2%N] OOK_NONE
              ltac:(right; vm_compute; discriminate))
    as (e1 & e2 & e3 & _ & H & _).
  exists e2. exact H.
Defined.

Lemma sending_and_receiving_stay_apart_witness :
  SendControl board_cid OOK_ON_1 8%N (board []) = (None, sent_once)
  /\ forallb is_control_call (issued (board []) sent_once) = true
  /\ Receive frame_Decode three_frames MIHOME_MODE_MONITOR (board [])
     = (Returned None, heard_board)
  /\ forallb is_monitor_call (issued (board []) heard_board) = true.
Proof.
  destruct (sending_and_receiving_stay_apart frame_Decode) as (Hs & _ & Hr & _).
  split; [vm_compute; reflexivity|].
  split; [exact (Hs board_cid OOK_ON_1 8%N (board []) sent_once None
                    ltac:(vm_compute; reflexivity))|].
  split; [vm_compute; reflexivity|].
  exact (Hr three_frames MIHOME_MODE_MONITOR (board []) heard_board
            (Returned None) ltac:(vm_compute; reflexivity)).
Defined.


Lemma On_Off_write_in_order_witness :
  faults (radio (board [])) = []
  /\ forallb valid_socket [1%N; 2%N; 3%N] = true
  /\ needs_OOK (board []) = true
  /\ exists w_on,
      On [1%N; 2%N; 3%N] (board []) = (None, w_on)
      /\ written (issued (board []) w_on)
         = [(payload_for board_cid OOK_ON_2, 8%N);
            (payload_for board_cid OOK_ON_3, 8%N)].
Proof.
  split; [reflexivity|]. split; [reflexivity|]. split; [vm_compute; reflexivity|].
  destruct (On_Off_write_in_order [1%N; 2%N; 3%N] (board [])
              eq_refl ltac:(discriminate) eq_refl eq_refl)
    as (w_on & w_off & Hon & _ & Hw & _).
  exists w_on. split; [exact Hon|].
  change (needs_OOK (board [])) with true in Hw. exact Hw.
Defined.

